(** * generate_pdf.py: invoice normalizer, file discovery and interactive shell

    A shallow embedding of [generate_pdf.py].  Python values are an inductive
    type, a raised exception is a [Raise] result, the interactive shell runs
    in a small state-and-exception monad over the console, and the external
    collaborators (CSV/JSON loaders, template engine, PDF engine, viewer) are
    section variables.

    Text is modelled on the code points below 256: a Rocq [ascii] stands for
    the Python character with that code point, and the character classes
    ([str.isalnum], [str.lower], [str.strip]) are CPython's on that range. *)

From Stdlib Require Import ZArith String Ascii List Lia Bool.
From Stdlib Require Import DecimalString DecimalPos.
From Stdlib Require Import Floats.SpecFloat.
From stdpp Require Import gmap strings list sorting.

Set Warnings "-register-all".
Open Scope string_scope.
Open Scope Z_scope.

(** ** Python values, exceptions and builtins *)

Module Py.

(** The exceptions the program can meet.  [sys.exit(n)] raises
    [SystemExit n]; [External] stands for whatever a collaborator raises. *)
Inductive exn :=
| ValueError
| TypeError
| AttributeError
| OverflowError
| IndexError
| KeyError
| EOFError
| SystemExit (code : Z)
| External (what : string).

Inductive result (A : Type) :=
| Ok (a : A)
| Raise (e : exn).
Arguments Ok {A} a.
Arguments Raise {A} e.

(** The exceptions that are an exit asked for by the program. *)
Definition exits (e : exn) : Prop := exists code, e = SystemExit code.

#[export] Instance result_ret : MRet result := @Ok.

#[export] Instance result_bind : MBind result := fun A B k r =>
  match r with
  | Ok a => k a
  | Raise e => Raise e
  end.

(** Values as [json.load], [csv.DictReader] and [DataFrame.to_dict] build
    them.  A float is an IEEE value ([spec_float]); a dict has string keys. *)
Inductive pyval :=
| PNone
| PBool (b : bool)
| PInt (z : Z)
| PFloat (f : spec_float)
| PStr (s : string)
| PList (l : list pyval)
| PDict (d : gmap string pyval).

(** Truth value of an object, as [or], [not] and [if] test it. *)
Definition truthy (v : pyval) : bool :=
  match v with
  | PNone => false
  | PBool b => b
  | PInt z => negb (z =? 0)
  | PFloat (S754_zero _) => false
  | PFloat _ => true
  | PStr s => negb (String.eqb s "")
  | PList l => match l with [] => false | _ => true end
  | PDict d => match map_to_list d with [] => false | _ => true end
  end.

(** [a or b] *)
Definition py_or (a b : pyval) : pyval := if truthy a then a else b.

(** [d.get(k)] and [d.get(k, dflt)] on a dict. *)
Definition get (d : gmap string pyval) (k : string) : pyval :=
  default PNone (d !! k).

Definition get_default (d : gmap string pyval) (k : string) (dflt : pyval) : pyval :=
  default dflt (d !! k).

(** [v.get]: only a dict has the attribute. *)
Definition as_dict (v : pyval) : result (gmap string pyval) :=
  match v with
  | PDict d => Ok d
  | _ => Raise AttributeError
  end.

Definition chars (s : string) : list pyval :=
  map (fun c => PStr (String c "")) (list_ascii_of_string s).

(** [for x in v]: a list yields its elements, a dict its keys, a string its
    characters; nothing else is iterable. *)
Definition iter (v : pyval) : result (list pyval) :=
  match v with
  | PList l => Ok l
  | PDict d => Ok (map (fun kv => PStr (fst kv)) (map_to_list d))
  | PStr s => Ok (chars s)
  | _ => Raise TypeError
  end.

(** A [for] loop whose body updates [st] and may raise. *)
Fixpoint for_each {S A} (body : S -> A -> result S) (st : S) (l : list A)
    : result S :=
  match l with
  | [] => Ok st
  | x :: l' => st' ← body st x; for_each body st' l'
  end.

(** *** Characters *)

Definition code (c : ascii) : Z := Z.of_N (N_of_ascii c).

Definition between (lo hi : Z) (c : ascii) : bool :=
  (lo <=? code c) && (code c <=? hi).

(** [str.isspace] on one character. *)
Definition isspace (c : ascii) : bool :=
  between 9 13 c || between 28 32 c || (code c =? 133) || (code c =? 160).

Definition isdecimal (c : ascii) : bool := between 48 57 c.

(** [str.isalpha] on one character: the letters of ASCII and of Latin-1. *)
Definition isalpha (c : ascii) : bool :=
  between 65 90 c || between 97 122 c
  || (code c =? 170) || (code c =? 181) || (code c =? 186)
  || between 192 214 c || between 216 246 c || between 248 255 c.

(** [str.isnumeric] on one character: digits, superscripts, fractions. *)
Definition isnumeric (c : ascii) : bool :=
  isdecimal c || (code c =? 178) || (code c =? 179) || (code c =? 185)
  || between 188 190 c.

(** [c.isalnum()] *)
Definition isalnum (c : ascii) : bool := isalpha c || isnumeric c.

(** [c.lower()] *)
Definition lower_char (c : ascii) : ascii :=
  if between 65 90 c || between 192 214 c || between 216 222 c
  then ascii_of_N (N_of_ascii c + 32)
  else c.

Fixpoint lower (s : string) : string :=
  match s with
  | EmptyString => EmptyString
  | String c s' => String (lower_char c) (lower s')
  end.

Fixpoint lstrip (l : list ascii) : list ascii :=
  match l with
  | c :: l' => if isspace c then lstrip l' else l
  | [] => []
  end.

(** [s.strip()] *)
Definition strip (s : string) : string :=
  string_of_list_ascii (rev (lstrip (rev (lstrip (list_ascii_of_string s))))).

(** *** [int()] *)

Definition digit_val (c : ascii) : option Z :=
  if isdecimal c then Some (code c - 48) else None.

(** Digits with single underscores between them; [count] is the number of
    digits read. *)
Fixpoint parse_digits (after_digit : bool) (acc : Z) (count : nat)
    (l : list ascii) : option (Z * nat) :=
  match l with
  | [] => if after_digit then Some (acc, count) else None
  | c :: l' =>
      match digit_val c with
      | Some d => parse_digits true (acc * 10 + d) (S count) l'
      | None =>
          if Ascii.eqb c "_" && after_digit
          then parse_digits false acc count l'
          else None
      end
  end.

(** CPython refuses a decimal literal of more than 4300 digits. *)
Definition max_str_digits : nat := 4300.

Definition parse_unsigned (l : list ascii) : option Z :=
  match parse_digits false 0 0 l with
  | Some (z, n) => if (n <=? max_str_digits)%nat then Some z else None
  | None => None
  end.

(** [int(s)] for a string: surrounding whitespace, an optional sign, decimal
    digits.  [None] is the [ValueError]. *)
Definition int_of_string (s : string) : option Z :=
  match list_ascii_of_string (strip s) with
  | c :: l =>
      if Ascii.eqb c "-" then option_map Z.opp (parse_unsigned l)
      else if Ascii.eqb c "+" then parse_unsigned l
      else parse_unsigned (c :: l)
  | [] => None
  end.

(** [int(f)] for a float truncates towards zero. *)
Definition int_of_float (f : spec_float) : result Z :=
  match f with
  | S754_zero _ => Ok 0
  | S754_nan => Raise ValueError
  | S754_infinity _ => Raise OverflowError
  | S754_finite s m e =>
      let a := if 0 <=? e then Z.pos m * 2 ^ e else Z.pos m / 2 ^ (- e) in
      Ok (if s then - a else a)
  end.

(** [int(v)] *)
Definition int (v : pyval) : result Z :=
  match v with
  | PInt z => Ok z
  | PBool b => Ok (if b then 1 else 0)
  | PFloat f => int_of_float f
  | PStr s =>
      match int_of_string s with
      | Some z => Ok z
      | None => Raise ValueError
      end
  | PNone | PList _ | PDict _ => Raise TypeError
  end.

(** *** [str()] *)

(** [str(n)] for an int. *)
Definition str_of_int (z : Z) : string := NilZero.string_of_int (Z.to_int z).

Section Str.

(** CPython's [repr] of floats and containers is not modelled. *)
Variable repr_ext : pyval -> string.

(** [str(v)] *)
Definition str (v : pyval) : string :=
  match v with
  | PStr s => s
  | PInt z => str_of_int z
  | PBool b => if b then "True" else "False"
  | PNone => "None"
  | _ => repr_ext v
  end.

End Str.

(** *** Dict keys *)

(** Lists and dicts are unhashable. *)
Definition hashable (v : pyval) : bool :=
  match v with
  | PList _ | PDict _ => false
  | _ => true
  end.

(** Exact comparison of a float with an int, [f == z]. *)
Definition float_eq_int (f : spec_float) (z : Z) : bool :=
  match f with
  | S754_zero _ => z =? 0
  | S754_finite s m e =>
      let a := if s then Z.neg m else Z.pos m in
      if 0 <=? e then a * 2 ^ e =? z else a =? z * 2 ^ (- e)
  | _ => false
  end.

(** Two floats used as keys: equal values, or the one NaN object of the JSON
    decoder. *)
Definition float_eq (f g : spec_float) : bool :=
  match f, g with
  | S754_zero _, S754_zero _ => true
  | S754_nan, S754_nan => true
  | S754_infinity s, S754_infinity t => Bool.eqb s t
  | S754_finite s m e, S754_finite t n k =>
      Bool.eqb s t &&
      (Z.pos m * 2 ^ (e - Z.min e k) =? Z.pos n * 2 ^ (k - Z.min e k))
  | _, _ => false
  end.

Definition int_of_bool (b : bool) : Z := if b then 1 else 0.

(** Key equality of a dict: [==] on hashable values. *)
Definition key_eq (a b : pyval) : bool :=
  match a, b with
  | PNone, PNone => true
  | PStr s, PStr t => String.eqb s t
  | PBool x, PBool y => Bool.eqb x y
  | PBool x, PInt z | PInt z, PBool x => int_of_bool x =? z
  | PInt x, PInt y => x =? y
  | PFloat f, PInt z | PInt z, PFloat f => float_eq_int f z
  | PFloat f, PBool x | PBool x, PFloat f => float_eq_int f (int_of_bool x)
  | PFloat f, PFloat g => float_eq f g
  | _, _ => false
  end.

End Py.

(** ** [pathlib]: the parts of a path the program reads *)

Module Path.
Import Py.

(** [name.rfind('.')], counted from [pos]. *)
Fixpoint rfind_dot (s : string) (pos : nat) : option nat :=
  match s with
  | EmptyString => None
  | String c s' =>
      match rfind_dot s' (S pos) with
      | Some i => Some i
      | None => if Ascii.eqb c "." then Some pos else None
      end
  end.

(** [PurePath.suffix]: the last dot-separated part of the name, with its
    dot, when the dot is neither the first nor the last character. *)
Definition suffix (name : string) : string :=
  match rfind_dot name 0 with
  | Some i =>
      if ((0 <? i) && (i <? String.length name - 1))%nat
      then substring i (String.length name - i) name
      else ""
  | None => ""
  end.

End Path.

(** ** The invoice normalizer *)

Module Normalizer.
Import Py.

(** A line item is a dict with the keys [product], [price] and [qty]. *)
Record line_item := LineItem { product : pyval; price : pyval; qty : pyval }.

(** The [invoices] dict: keys in insertion order, compared with [==]. *)
Definition invoice_set := list (pyval * list line_item).

(** [invoices[k]], [k in invoices] *)
Fixpoint lookup (k : pyval) (m : invoice_set) : option (list line_item) :=
  match m with
  | [] => None
  | (k', v) :: m' => if key_eq k' k then Some v else lookup k m'
  end.

Definition contains (k : pyval) (m : invoice_set) : bool :=
  match lookup k m with Some _ => true | None => false end.

(** [invoices[k] = v] for a hashable [k]: an existing entry keeps its key and
    its place. *)
Fixpoint set (k : pyval) (v : list line_item) (m : invoice_set) : invoice_set :=
  match m with
  | [] => [(k, v)]
  | (k', v') :: m' =>
      if key_eq k' k then (k', v) :: m' else (k', v') :: set k v m'
  end.

Definition setitem (k : pyval) (v : list line_item) (m : invoice_set)
    : result invoice_set :=
  if hashable k then Ok (set k v m) else Raise TypeError.

(** [invoices[k].append(item)] for a key that is present. *)
Fixpoint append (k : pyval) (item : line_item) (m : invoice_set) : invoice_set :=
  match m with
  | [] => []
  | (k', v') :: m' =>
      if key_eq k' k then (k', (v' ++ [item])%list) :: m' else (k', v') :: append k item m'
  end.

Definition keys (m : invoice_set) : list pyval := map fst m.

(** The dict built for one item-like object of the JSON branch. *)
Definition json_item (it : pyval) : result line_item :=
  d ← as_dict it;
  Ok (LineItem (get_default d "product" (get_default d "name" (PStr "")))
               (get_default d "price" (PInt 0))
               (get_default d "qty" (get_default d "quantity" (PInt 1)))).

(** The id of a JSON element, given the invoices so far. *)
Definition json_id (invoices : invoice_set) (d : gmap string pyval) : pyval :=
  py_or (py_or (get d "invoice_id") (get d "id"))
        (PStr (str_of_int (Z.of_nat (length invoices)))).

(** Body of the loop over a JSON array. *)
Definition json_step (invoices : invoice_set) (inv : pyval) : result invoice_set :=
  d ← as_dict inv;
  let iid := json_id invoices d in
  let items := get_default d "items" (PList [inv]) in
  its ← iter items;
  lis ← mapM json_item its;
  setitem iid lis invoices.

(** The list the JSON branch iterates for one array element:
    [inv.get("items", [inv])]. *)
Definition item_objects (inv : pyval) : result (list pyval) :=
  d ← as_dict inv; iter (get_default d "items" (PList [inv])).

(** Where a line item of the JSON branch comes from: an object [d] among the
    item objects of an array element, its price and qty taken as they are. *)
Definition json_source (l : list pyval) (it : line_item) : Prop :=
  exists inv objs d,
    inv ∈ l /\ item_objects inv = Ok objs /\ PDict d ∈ objs /\
    price it = get_default d "price" (PInt 0) /\
    qty it = get_default d "qty" (get_default d "quantity" (PInt 1)).

(** Where a line item of the CSV branch comes from: a row [d], its price
    taken as it is and its qty through [int]. *)
Definition csv_source (rows : list pyval) (it : line_item) : Prop :=
  exists d z,
    PDict d ∈ rows /\
    price it = get_default d "price" (PInt 0) /\
    int (get_default d "qty" (get_default d "quantity" (PInt 1))) = Ok z /\
    qty it = PInt z.

Definition all_items (P : line_item -> Prop) (m : invoice_set) : Prop :=
  forall k its it, (k, its) ∈ m -> it ∈ its -> P it.

Definition values_nonempty (m : invoice_set) : Prop :=
  forall k its, (k, its) ∈ m -> its <> [].

(** The field fallbacks in the words of the specification: the first field
    that is present, else the default. *)
Definition spec_product (it : gmap string pyval) : pyval :=
  match it !! "product" with
  | Some v => v
  | None => match it !! "name" with Some v => v | None => PStr "" end
  end.

Definition spec_price (it : gmap string pyval) : pyval :=
  match it !! "price" with Some v => v | None => PInt 0 end.

Definition spec_qty (it : gmap string pyval) : pyval :=
  match it !! "qty" with
  | Some v => v
  | None => match it !! "quantity" with Some v => v | None => PInt 1 end
  end.

Definition spec_item (it : gmap string pyval) : line_item :=
  LineItem (spec_product it) (spec_price it) (spec_qty it).

(** The items of an array element in the words of the specification:
    [inv.items] when present, else [inv] itself as the only item. *)
Definition spec_items (inv : gmap string pyval) : pyval :=
  match inv !! "items" with Some v => v | None => PList [PDict inv] end.

(** The specification's blank id field: absent or empty. *)
Definition blank (d : gmap string pyval) (k : string) : bool :=
  match d !! k with
  | None | Some PNone | Some (PStr "") => true
  | Some _ => false
  end.

(** The invoices after a run of assignments, one per array element: the
    element [inv] with item objects [its] stores the specification's line
    items under the id it derives from the invoices so far. *)
Definition assign_all (tr : list (gmap string pyval * list (gmap string pyval)))
    (m : invoice_set) : invoice_set :=
  fold_left (fun m e => set (json_id m (fst e)) (map spec_item (snd e)) m) tr m.

Definition default_invoice : invoice_set :=
  [(PStr "default", [LineItem (PStr "-") (PInt 0) (PInt 1)])].

Section Parse.

Variable repr_ext : pyval -> string.

(** The id of a CSV row; the empty string when the row has none. *)
Definition csv_id (d : gmap string pyval) : string :=
  str repr_ext (py_or (py_or (get d "invoice_id") (get d "id")) (PStr "")).

(** The id test of the CSV branch before [str]: one of the two fields is
    truthy. *)
Definition has_id (d : gmap string pyval) : bool :=
  truthy (get d "invoice_id") || truthy (get d "id").

(** The rows with id [k], among those that have an id, in file order. *)
Definition rows_of (k : string) (rows : list (gmap string pyval))
    : list (gmap string pyval) :=
  List.filter (fun d => String.eqb (csv_id d) k) (List.filter has_id rows).

(** The [item] dict built for one CSV row. *)
Definition csv_item (d : gmap string pyval) : result line_item :=
  let product :=
    PStr (str repr_ext (get_default d "product" (get_default d "name" (PStr "")))) in
  let price := get_default d "price" (PInt 0) in
  q ← int (get_default d "qty" (get_default d "quantity" (PInt 1)));
  Ok (LineItem product price (PInt q)).

(** Body of the loop over CSV rows. *)
Definition csv_step (invoices : invoice_set) (row : pyval) : result invoice_set :=
  d ← as_dict row;
  let iid := csv_id d in
  if negb (truthy (PStr iid)) then Ok invoices
  else
    item ← csv_item d;
    let invoices' :=
      if contains (PStr iid) invoices then invoices else set (PStr iid) [] invoices in
    Ok (append (PStr iid) item invoices').

Definition parse_invoices_from_data (data : pyval) (file_path : string)
    : result invoice_set :=
  let ext := lower (Path.suffix file_path) in
  if String.eqb ext ".json" then
    match data with
    | PList l => for_each json_step [] l
    | _ => Ok default_invoice
    end
  else
    rows ← iter data;
    for_each csv_step [] rows.

End Parse.

End Normalizer.

(** ** File discovery *)

Module Discovery.
Import Py.

(** An entry of a directory: its file name, and whether it is a regular
    file.  A directory that does not exist is [None]. *)
Record dirent := Dirent { name : string; is_file : bool }.

Definition directory := option (list dirent).

Definition CSV_EXT : list string := [".csv"].
Definition JSON_EXT : list string := [".json"].
Definition HTML_EXT : list string := [".html"].

(** [s in exts] for a tuple of strings. *)
Definition in_exts (s : string) (exts : list string) : bool :=
  existsb (String.eqb s) exts.

(** Order of two POSIX paths of one directory: that of their names, by code
    point. *)
Definition path_le (a b : dirent) : Prop := String.leb (name a) (name b) = true.

#[export] Instance path_le_dec a b : Decision (path_le a b).
Proof. unfold path_le. apply _. Defined.

(** [sorted(paths)] *)
Definition sorted (l : list dirent) : list dirent := merge_sort path_le l.

Definition has_ext (exts : list string) (f : dirent) : bool :=
  is_file f && in_exts (lower (Path.suffix (name f))) exts.

(** Body of the loop of [get_data_files] over the sorted entries. *)
Definition scan_step (acc : list dirent * list dirent) (f : dirent)
    : list dirent * list dirent :=
  let '(csv_files, json_files) := acc in
  if has_ext CSV_EXT f then ((csv_files ++ [f])%list, json_files)
  else if has_ext JSON_EXT f then (csv_files, (json_files ++ [f])%list)
  else acc.

Definition get_data_files (data_dir : directory) : list dirent * list dirent :=
  match data_dir with
  | None => ([], [])
  | Some entries => fold_left scan_step (sorted entries) ([], [])
  end.

Definition get_templates (templates_dir : directory) : list dirent :=
  match templates_dir with
  | None => []
  | Some entries => sorted (List.filter (has_ext HTML_EXT) entries)
  end.

(** [data_files = csv_files + json_files] of [main]. *)
Definition data_files (data_dir : directory) : list dirent :=
  let '(csv_files, json_files) := get_data_files data_dir in
  (csv_files ++ json_files)%list.

End Discovery.

(** ** The interactive shell *)

Module Shell.
Import Py Normalizer Discovery.

Inductive menu := DataMenu | TemplateMenu | InvoiceMenu.

(** What the program writes to the console, line by line. *)
Inductive message :=
| NoDataFiles
| AddDataFiles
| NoTemplates
| AddTemplates
| BannerRule
| Banner
| Rule
| Blank
| Title (m : menu)
| MenuLine (i : Z) (item : string)
| EnterNumber (max_num : Z)
| NoInvoices
| Saved (path : string)
| Opened.

Inductive event :=
| Print (m : message)
| Input (prompt : menu).

(** The console: the lines still to be read, and what was written. *)
Record console := Console { stdin : list string; stdout : list event }.

Definition io (A : Type) : Type := console -> result A * console.

#[export] Instance io_ret : MRet io := fun A a c => (Ok a, c).

#[export] Instance io_bind : MBind io := fun A B k m c =>
  match m c with
  | (Ok a, c') => k a c'
  | (Raise e, c') => (Raise e, c')
  end.

Definition lift {A} (r : result A) : io A := fun c => (r, c).

Definition emit (e : event) : io unit :=
  fun c => (Ok tt, Console (stdin c) (stdout c ++ [e])%list).

Definition print (m : message) : io unit := emit (Print m).

(** A call of a collaborator: its failure is raised as [External]. *)
Definition call {A} (r : A + string) : io A :=
  lift (match r with inl a => Ok a | inr what => Raise (External what) end).

(** [sys.exit(code)] *)
Definition sys_exit {A} (code : Z) : io A := lift (Raise (SystemExit code)).

(** [input(prompt)]: writes the prompt and reads one line; the end of the
    input raises [EOFError]. *)
Definition input (prompt : menu) : io string := fun c =>
  let out := (stdout c ++ [Input prompt])%list in
  match stdin c with
  | [] => (Raise EOFError, Console [] out)
  | s :: rest => (Ok s, Console rest out)
  end.

(** The entry is accepted when [int] reads it as some [n] in [1..max_num]. *)
Definition accept (max_num : Z) (s : string) : option Z :=
  match int_of_string (strip s) with
  | Some n => if (1 <=? n) && (n <=? max_num) then Some (n - 1) else None
  | None => None
  end.

(** The [while True] loop of [select_option], one line of input per turn. *)
Fixpoint select_loop (prompt : menu) (max_num : Z) (lines : list string)
    (out : list event) : result Z * console :=
  match lines with
  | [] => (Raise EOFError, Console [] (out ++ [Input prompt])%list)
  | s :: rest =>
      match accept max_num s with
      | Some i => (Ok i, Console rest (out ++ [Input prompt])%list)
      | None =>
          select_loop prompt max_num rest
            (out ++ [Input prompt; Print (EnterNumber max_num)])%list
      end
  end.

Definition select_option (prompt : menu) (max_num : Z) : io Z :=
  fun c => select_loop prompt max_num (stdin c) (stdout c).

(** The entry [s] is not an integer of [1..max_num]. *)
Definition rejected (max_num : Z) (s : string) : Prop :=
  forall m, int_of_string (strip s) = Some m -> m < 1 \/ max_num < m.

(** What is written for the entries [bad], each prompted for and refused. *)
Definition retries (prompt : menu) (max_num : Z) (bad : list string) : list event :=
  flat_map (fun _ => [Input prompt; Print (EnterNumber max_num)]) bad.

(** [seq[i]] *)
Definition index {A} (l : list A) (i : Z) : result A :=
  match (if 0 <=? i then l !! Z.to_nat i else l !! Z.to_nat (Z.of_nat (length l) + i)) with
  | Some x => if - Z.of_nat (length l) <=? i then Ok x else Raise IndexError
  | None => Raise IndexError
  end.

(** [len(seq)] *)
Definition len {A} (l : list A) : Z := Z.of_nat (length l).

(** [safe_id] of [main]: only a string can be iterated over. *)
Definition safe_char (c : ascii) : ascii :=
  if isalnum c || (Ascii.eqb c "-" || Ascii.eqb c "_") then c else "_"%char.

Definition sanitize (s : string) : string :=
  string_of_list_ascii (map safe_char (list_ascii_of_string s)).

Definition safe_id (invoice_id : pyval) : result string :=
  match invoice_id with
  | PStr s => Ok (sanitize s)
  | _ => Raise TypeError
  end.

(** [OUTPUT_DIR / f"invoice_{safe_id}.pdf"], relative to [BASE_DIR]. *)
Definition output_name (safe : string) : string := "invoice_" ++ safe ++ ".pdf".
Definition output_path (safe : string) : string := "output/" ++ output_name safe.

(** [sorted(invoices.keys())].  String keys sort by code point.  A sort that
    has to compare a string with a number raises [TypeError]; the order
    CPython gives to numeric keys is the parameter [sort_numbers]. *)
Definition as_str (v : pyval) : option string :=
  match v with PStr s => Some s | _ => None end.

Definition is_number (v : pyval) : bool :=
  match v with PBool _ | PInt _ | PFloat _ => true | _ => false end.

Definition str_le (a b : string) : Prop := String.leb a b = true.

#[export] Instance str_le_dec a b : Decision (str_le a b).
Proof. unfold str_le. apply _. Defined.

Section Main.

Variable repr_ext : pyval -> string.
Variable sort_numbers : list pyval -> list pyval.

(** The collaborators: the loaders, the template engine, the PDF engine and
    the viewer.  Each returns its value or fails with an error of its own. *)
Variable load_csv : string -> pyval + string.
Variable load_json : string -> pyval + string.
Variable render_html : string -> pyval -> list line_item -> string + string.
Variable generate_pdf : string -> string -> unit + string.
Variable open_pdf : string -> unit + string.

Definition sorted_keys (ks : list pyval) : result (list pyval) :=
  match mapM as_str ks with
  | Some ss => Ok (map PStr (merge_sort str_le ss))
  | None =>
      if (length ks <=? 1)%nat then Ok ks
      else if forallb is_number ks then Ok (sort_numbers ks)
      else Raise TypeError
  end.

(** The numbered lines of [print_menu], from number [i] on. *)
Fixpoint print_items (i : Z) (items : list pyval) : io unit :=
  match items with
  | [] => mret tt
  | item :: rest =>
      _ ← print (MenuLine i (str repr_ext item));
      print_items (i + 1) rest
  end.

Definition print_menu (title : menu) (items : list pyval) : io unit :=
  _ ← print Blank;
  _ ← print (Title title);
  _ ← print Rule;
  _ ← print_items 1 items;
  print Rule.

(** The three directories next to the script. *)
Record filesystem := Filesystem {
  data_dir : directory;
  templates_dir : directory;
  output_dir : directory
}.

(** [mkdir(exist_ok=True)] *)
Definition mkdir (d : directory) : directory :=
  match d with
  | None => Some []
  | Some entries => Some entries
  end.

Definition ensure_dirs (fs : filesystem) : filesystem :=
  Filesystem (mkdir (data_dir fs)) (mkdir (templates_dir fs)) (mkdir (output_dir fs)).

(** Lines 191-205: the directories are made, the files discovered, and the
    run ends with exit code 1 when there is no data file or no template. *)
Definition check_inputs (fs0 : filesystem) : io (list dirent * list dirent) :=
  let fs := ensure_dirs fs0 in
  let '(csv_files, json_files) := get_data_files (data_dir fs) in
  let data_files := (csv_files ++ json_files)%list in
  let templates := get_templates (templates_dir fs) in
  if bool_decide (data_files = []) then
    _ ← print NoDataFiles;
    _ ← print AddDataFiles;
    sys_exit 1
  else if bool_decide (templates = []) then
    _ ← print NoTemplates;
    _ ← print AddTemplates;
    sys_exit 1
  else mret (data_files, templates).

(** Lines 207-233: the two selections, the load and the normalization. *)
Definition select_and_normalize (data_files templates : list dirent)
    : io (dirent * invoice_set) :=
  _ ← print BannerRule;
  _ ← print Banner;
  _ ← print BannerRule;
  _ ← print_menu DataMenu (map (fun f => PStr (name f)) data_files);
  idx_data ← select_option DataMenu (len data_files);
  data_path ← lift (index data_files idx_data);
  _ ← print_menu TemplateMenu (map (fun f => PStr (name f)) templates);
  idx_tpl ← select_option TemplateMenu (len templates);
  template_path ← lift (index templates idx_tpl);
  let ext := lower (Path.suffix (name data_path)) in
  raw ← call (if String.eqb ext ".csv" then load_csv (name data_path)
              else load_json (name data_path));
  invoices ← lift (parse_invoices_from_data repr_ext raw (name data_path));
  mret (template_path, invoices).

(** Lines 234-257: the exit on an empty invoice set, the selection of the
    invoice, the rendering and the PDF. *)
Definition emit_invoice (template_path : dirent) (invoices : invoice_set) : io unit :=
  if bool_decide (invoices = []) then
    _ ← print NoInvoices;
    sys_exit 1
  else
    inv_ids ← lift (sorted_keys (keys invoices));
    _ ← print_menu InvoiceMenu inv_ids;
    idx_inv ← select_option InvoiceMenu (len inv_ids);
    invoice_id ← lift (index inv_ids idx_inv);
    items ← lift (match lookup invoice_id invoices with
                  | Some items => Ok items
                  | None => Raise KeyError
                  end);
    html_content ← call (render_html (name template_path) invoice_id items);
    safe ← lift (safe_id invoice_id);
    _ ← call (generate_pdf html_content (output_path safe));
    _ ← print (Saved (output_path safe));
    _ ← call (open_pdf (output_path safe));
    print Opened.

Definition main (fs : filesystem) : io unit :=
  found ← check_inputs fs;
  chosen ← select_and_normalize (fst found) (snd found);
  emit_invoice (fst chosen) (snd chosen).

End Main.

End Shell.

(** ** Sample inputs *)

Module Examples.
Import Py Normalizer Discovery Shell.

Definition repr_stub (v : pyval) : string := "?".

(** A JSON object or a CSV record with the given fields. *)
Definition obj (fields : list (string * pyval)) : pyval := PDict (list_to_map fields).

(** The float [2.5]. *)
Definition two_and_a_half : spec_float := S754_finite false 5 (-1).

(** [[{"invoice_id": "A1", "items": [{"product": "Widget", "price": 10, "qty": 2.5}]}]] *)
Definition json_float_qty : pyval :=
  PList [obj [("invoice_id", PStr "A1");
              ("items", PList [obj [("product", PStr "Widget"); ("price", PInt 10);
                                    ("qty", PFloat two_and_a_half)]])]].

(** [[{"id": 7, "product": "Widget"}]] *)
Definition json_numeric_id : pyval :=
  PList [obj [("id", PInt 7); ("product", PStr "Widget")]].

(** [[{"id": "1", "product": "a"}, {"product": "b"}, {"product": "c"}]] *)
Definition json_fallback_collision : pyval :=
  PList [obj [("id", PStr "1"); ("product", PStr "a")];
         obj [("product", PStr "b")];
         obj [("product", PStr "c")]].

(** [[{"id": "A1", "items": []}]] *)
Definition json_empty_items : pyval :=
  PList [obj [("id", PStr "A1"); ("items", PList [])]].

(** Two invoices, the first with an items list, the second its own item. *)
Definition json_two_invoices : pyval :=
  PList [obj [("invoice_id", PStr "A1");
              ("items", PList [obj [("name", PStr "Widget"); ("quantity", PInt 3)]])];
         obj [("product", PStr "Bolt"); ("price", PInt 2)]].

(** Rows as [csv.DictReader] gives them: every value a string. *)
Definition csv_rows : list (gmap string pyval) :=
  [ list_to_map [("invoice_id", PStr "A1"); ("product", PStr "Widget");
                 ("price", PStr "9.99"); ("qty", PStr "2")];
    list_to_map [("invoice_id", PStr ""); ("product", PStr "Orphan");
                 ("price", PStr "1"); ("qty", PStr "x")];
    list_to_map [("invoice_id", PStr "A1"); ("product", PStr "Bolt");
                 ("price", PStr "0.5"); ("qty", PStr "10")] ].

(** A row as pandas gives it for a numeric id column holding [0]. *)
Definition csv_zero_id : gmap string pyval :=
  list_to_map [("invoice_id", PInt 0); ("product", PStr "Widget");
               ("price", PInt 5); ("qty", PInt 1)].

(** Two objects with ids of their own, one under each field name. *)
Definition json_two_ids : list (gmap string pyval) :=
  [ list_to_map [("invoice_id", PStr "A1");
                 ("items", PList [obj [("name", PStr "Widget"); ("quantity", PInt 3)]])];
    list_to_map [("id", PStr "B2"); ("product", PStr "Bolt"); ("price", PInt 2)] ].

(** Rows of which the second has a qty that is no integer and the third
    has none. *)
Definition csv_bad_qty : list (gmap string pyval) :=
  [ list_to_map [("id", PStr "A1"); ("qty", PStr "2")];
    list_to_map [("qty", PStr "none")];
    list_to_map [("id", PStr "A2"); ("qty", PStr "2.5")];
    list_to_map [("id", PStr "A3"); ("qty", PNone)] ].

Definition stub_load_csv (path : string) : pyval + string :=
  inl (PList (map PDict csv_rows)).
Definition stub_load_json (path : string) : pyval + string := inl json_two_invoices.
Definition stub_render (template : string) (invoice_id : pyval) (items : list line_item)
    : string + string := inl "<html></html>".
Definition stub_pdf (html path : string) : unit + string := inl tt.
Definition stub_open (path : string) : unit + string := inl tt.
Definition stub_no_viewer (path : string) : unit + string := inr "no viewer".

Definition sample_dir : list dirent :=
  [ Dirent "b.json" true; Dirent "notes.txt" true; Dirent "a.CSV" true;
    Dirent "old.csv" false; Dirent "Z.csv" true ].

Definition sample_fs : filesystem :=
  Filesystem (Some sample_dir) (Some [Dirent "invoice.html" true]) None.

Definition empty_fs : filesystem := Filesystem None None None.

(** The shell with the stub collaborators. *)
Definition sample_main : filesystem -> io unit :=
  main repr_stub (fun ks => ks) stub_load_csv stub_load_json stub_render stub_pdf stub_open.

End Examples.

(** ** Measures of an invoice set *)

Module Derived.
Import Py Normalizer.

(** The number of line items of an invoice set, all invoices together. *)
Definition item_count (m : invoice_set) : nat :=
  sum_list (map (fun e => length (snd e)) m).

(** No key is equal ([==]) to a later one. *)
Definition keys_distinct (m : invoice_set) : Prop :=
  ForallOrdPairs (fun a b => key_eq a b = false) (keys m).

(** A key as the JSON branch makes them: truthy and hashable. *)
Definition good_json_key (k : pyval) : Prop := truthy k = true /\ hashable k = true.

(** A key as the CSV branch makes them: a string that is not empty. *)
Definition good_csv_key (k : pyval) : Prop := exists s, k = PStr s /\ s <> "".

(** The id an object states: [invoice_id], else [id]. *)
Definition explicit_id (d : gmap string pyval) : pyval :=
  py_or (get d "invoice_id") (get d "id").

(** The objects [ds] state the ids [ids], one each, none empty. *)
Definition states_ids (ds : list (gmap string pyval)) (ids : list string) : Prop :=
  Forall2 (fun d s => explicit_id d = PStr s /\ s <> "") ds ids.

End Derived.

(** ** Reports of the shell *)

Module Reports.
Import Py Shell.

(** The two lines that report a result: the saved path and the opening. *)
Definition is_report (e : event) : bool :=
  match e with
  | Print (Saved _) | Print Opened => true
  | _ => false
  end.

(** A character that may stand in a file name as it is. *)
Definition safe (ch : ascii) : bool :=
  isalnum ch || (Ascii.eqb ch "-" || Ascii.eqb ch "_").

End Reports.

(** * Properties *)

(** ** Loops and the result monad *)

Module LoopFacts.
Import Py.

Lemma bind_Ok {A B} (r : result A) (k : A -> result B) (b : B) :
  r ≫= k = Ok b -> exists a, r = Ok a /\ k a = Ok b.
Proof. destruct r as [a|e]; simpl; [eauto | discriminate]. Qed.

(** An invariant of the loop body that holds before the loop holds after. *)
Lemma for_each_inv {S A} (P : S -> Prop) (body : S -> A -> result S) (l : list A) :
  (forall st x st', x ∈ l -> P st -> body st x = Ok st' -> P st') ->
  forall st st', P st -> for_each body st l = Ok st' -> P st'.
Proof.
  induction l as [|x l IH]; intros Hbody st st' Hst Hrun; simpl in Hrun.
  - congruence.
  - apply bind_Ok in Hrun as (st1 & H1 & Hrun).
    apply (IH (fun st x st' Hin => Hbody st x st' (list_elem_of_further _ _ _ Hin)) st1);
      [|exact Hrun].
    apply (Hbody st x); [left | exact Hst | exact H1].
Qed.

Lemma for_each_app {S A} (body : S -> A -> result S) (l1 l2 : list A) (st : S) :
  for_each body st (l1 ++ l2) = for_each body st l1 ≫= fun st' => for_each body st' l2.
Proof.
  revert st; induction l1 as [|x l1 IH]; intros st; simpl; [reflexivity|].
  destruct (body st x) as [st1|e]; simpl; [apply IH | reflexivity].
Qed.

Lemma mapM_Ok {A B} (f : A -> result B) (l : list A) (k : list B) :
  mapM f l = Ok k -> Forall2 (fun x y => f x = Ok y) l k.
Proof.
  revert k; induction l as [|x l IH]; intros k H; simpl in H.
  - injection H as <-. constructor.
  - apply bind_Ok in H as (y & Hy & H).
    apply bind_Ok in H as (k' & Hk' & H).
    injection H as <-. constructor; auto.
Qed.

End LoopFacts.

(** ** The normalizer *)

Module NormalizerFacts.
Import Py Normalizer LoopFacts.

Lemma elem_of_set k0 v m k its :
  (k, its) ∈ set k0 v m -> (k, its) ∈ m \/ its = v.
Proof.
  induction m as [|[k' v'] m IH]; simpl.
  - intros H%list_elem_of_singleton. injection H as -> ->. by right.
  - destruct (key_eq k' k0).
    + intros [H|H]%elem_of_cons.
      * injection H as -> ->. by right.
      * left. by right.
    + intros [H|H]%elem_of_cons.
      * left. rewrite H. by left.
      * destruct (IH H) as [?|?]; [left; by right | by right].
Qed.

Lemma elem_of_append k0 item m k its :
  (k, its) ∈ append k0 item m ->
  (k, its) ∈ m \/ exists its0, (k, its0) ∈ m /\ its = (its0 ++ [item])%list.
Proof.
  induction m as [|[k' v'] m IH]; simpl.
  - intros H. by left.
  - destruct (key_eq k' k0).
    + intros [H|H]%elem_of_cons.
      * injection H as -> ->. right. exists v'. split; [by left | done].
      * left. by right.
    + intros [H|H]%elem_of_cons.
      * left. rewrite H. by left.
      * destruct (IH H) as [?|(its0 & ? & ?)]; [left; by right |].
        right. exists its0. split; [by right | done].
Qed.

Lemma json_step_source l m inv m' :
  inv ∈ l -> all_items (json_source l) m -> json_step m inv = Ok m' ->
  all_items (json_source l) m'.
Proof.
  intros Hin Hm Hstep k its it Hk Hit.
  unfold json_step in Hstep.
  apply bind_Ok in Hstep as (d & Hd & Hstep).
  apply bind_Ok in Hstep as (objs & Hobjs & Hstep).
  apply bind_Ok in Hstep as (lis & Hlis & Hstep).
  unfold setitem in Hstep. destruct (hashable _); [|discriminate].
  injection Hstep as <-.
  apply elem_of_set in Hk as [Hk| ->]; [by eapply Hm|].
  apply mapM_Ok in Hlis.
  destruct (proj1 (list_elem_of_lookup _ _) Hit) as [i Hi].
  destruct (Forall2_lookup_r _ _ _ _ _ Hlis Hi) as (obj & Hobj & Hitem).
  unfold json_item in Hitem.
  apply bind_Ok in Hitem as (d' & Hd' & Hitem). injection Hitem as <-.
  destruct obj; try discriminate. injection Hd' as ->.
  exists inv, objs, d'. split; [done|].
  split.
  { unfold item_objects. rewrite Hd. simpl. exact Hobjs. }
  split; [by eapply list_elem_of_lookup_2|]. done.
Qed.

Section Csv.

Variable repr_ext : pyval -> string.

Lemma csv_step_source rows m row m' :
  row ∈ rows -> all_items (csv_source rows) m -> csv_step repr_ext m row = Ok m' ->
  all_items (csv_source rows) m'.
Proof.
  intros Hin Hm Hstep k its it Hk Hit.
  unfold csv_step in Hstep.
  apply bind_Ok in Hstep as (d & Hd & Hstep).
  destruct row; try discriminate. injection Hd as ->.
  destruct (negb _).
  { injection Hstep as <-. by eapply Hm. }
  apply bind_Ok in Hstep as (item & Hitem & Hstep). injection Hstep as <-.
  assert (Hnew : csv_source rows item).
  { unfold csv_item in Hitem. apply bind_Ok in Hitem as (z & Hz & Hitem).
    injection Hitem as <-. exists d, z. auto. }
  assert (Hm' : forall k its it,
            (k, its) ∈ (if contains (PStr (csv_id repr_ext d)) m then m
                        else set (PStr (csv_id repr_ext d)) [] m) ->
            it ∈ its -> csv_source rows it).
  { intros k1 its1 it1 H1 H2. destruct (contains _ m); [by eapply Hm|].
    apply elem_of_set in H1 as [H1| ->]; [by eapply Hm|].
    by apply elem_of_nil in H2. }
  apply elem_of_append in Hk as [Hk|(its0 & Hk & ->)]; [by eapply Hm'|].
  apply elem_of_app in Hit as [Hit|Hit]; [by eapply Hm'|].
  apply list_elem_of_singleton in Hit as ->. exact Hnew.
Qed.

End Csv.

End NormalizerFacts.

Module NormalizerClaims.
Import Py Normalizer LoopFacts NormalizerFacts Examples.

(** C1 (as amended).  Whenever the normalizer returns an invoice set: in the
    CSV branch every line item comes from a row, its qty is the integer
    [int] makes of the row's qty (or quantity, or 1) and its price is the
    row's price as it is (or 0); in the JSON branch every line item comes
    from an item object, and both its price and its qty are the object's
    values as they are, so qty is an integer only when the source value is;
    a JSON root that is not a list gives the placeholder invoice. *)
Theorem qty_int_in_csv_price_kept repr data path invs :
  parse_invoices_from_data repr data path = Ok invs ->
  if String.eqb (lower (Path.suffix path)) ".json" then
    match data with
    | PList l => all_items (json_source l) invs
    | _ => invs = default_invoice
    end
  else exists rows, iter data = Ok rows /\ all_items (csv_source rows) invs.
Proof.
  unfold parse_invoices_from_data. intros H.
  destruct (String.eqb _ _).
  - destruct data; try (by injection H as <-).
    revert H. apply for_each_inv.
    + intros st x st' Hx. by apply json_step_source.
    + intros k its it Hk. by apply elem_of_nil in Hk.
  - apply bind_Ok in H as (rows & Hrows & H). exists rows. split; [done|].
    revert H. apply for_each_inv.
    + intros st x st' Hx. by apply csv_step_source.
    + intros k its it Hk. by apply elem_of_nil in Hk.
Qed.

Lemma qty_int_in_csv_price_kept_witness :
  exists rows,
    iter (PList (map PDict csv_rows)) = Ok rows /\
    all_items (csv_source rows)
      [(PStr "A1",
        [LineItem (PStr "Widget") (PStr "9.99") (PInt 2);
         LineItem (PStr "Bolt") (PStr "0.5") (PInt 10)])].
Proof.
  exact (qty_int_in_csv_price_kept repr_stub (PList (map PDict csv_rows)) "a.csv" _ eq_refl).
Defined.

(** C1 as stated fails in the JSON branch: a JSON qty of 2.5 reaches the
    invoice set as the float 2.5. *)
Lemma json_qty_not_coerced :
  parse_invoices_from_data repr_stub json_float_qty "invoices.json"
  = Ok [(PStr "A1", [LineItem (PStr "Widget") (PInt 10) (PFloat two_and_a_half)])]
  /\ ~ (exists z, PFloat two_and_a_half = PInt z).
Proof. split; [reflexivity | intros [z Hz]; discriminate]. Qed.

(** C2.  The JSON branch uses a numeric id as the key as it is: the key of
    [[{"id": 7, ...}]] is the int 7, not a string, and building the file name
    from it raises [TypeError]. *)
Theorem json_numeric_id_is_key :
  parse_invoices_from_data repr_stub json_numeric_id "invoices.json"
  = Ok [(PInt 7, [LineItem (PStr "Widget") (PInt 0) (PInt 1)])]
  /\ Shell.safe_id (PInt 7) = Raise TypeError
  /\ fst (Shell.main repr_stub (fun ks => ks) stub_load_csv
            (fun _ => inl json_numeric_id) stub_render stub_pdf stub_open
            sample_fs (Shell.Console ["3"; "1"; "1"] []))
     = Raise TypeError.
Proof. split_and!; reflexivity. Qed.

(** C3.  A synthesized id can collide: in
    [[{"id": "1", ...}, {...}, {...}]] the second and the third element both
    get the fallback id ["1"], so three elements, two of them with a
    synthesized id, leave one key, holding the items of the last. *)
Theorem json_fallback_id_collides :
  parse_invoices_from_data repr_stub json_fallback_collision "invoices.json"
  = Ok [(PStr "1", [LineItem (PStr "c") (PInt 0) (PInt 1)])].
Proof. reflexivity. Qed.

End NormalizerClaims.

(** ** The invoice dict under string keys *)

Module DictFacts.
Import Py Normalizer LoopFacts.

Lemma key_eq_str k a : key_eq k (PStr a) = true -> k = PStr a.
Proof.
  destruct k; simpl; try discriminate.
  intros H%String.eqb_eq. by subst.
Qed.

Lemma key_eq_str_neq k a b : key_eq k (PStr a) = true -> a <> b -> key_eq k (PStr b) = false.
Proof.
  intros ->%key_eq_str Hab. simpl. by apply String.eqb_neq.
Qed.

Lemma key_eq_refl k : hashable k = true -> key_eq k k = true.
Proof.
  destruct k as [|b|z|f|s|l|d]; simpl; try done.
  - by destruct b.
  - intros _. apply Z.eqb_refl.
  - intros _. destruct f as [s|s| |s m e]; simpl; try done.
    + by destruct s.
    + rewrite Z.eqb_refl. by destruct s.
  - intros _. apply String.eqb_refl.
Qed.

Lemma lookup_set_str k0 k v m :
  lookup (PStr k) (set (PStr k0) v m)
  = if String.eqb k0 k then Some v else lookup (PStr k) m.
Proof.
  induction m as [|[k' v'] m IH]; simpl.
  - by destruct (String.eqb k0 k).
  - destruct (key_eq k' (PStr k0)) eqn:Hk0; simpl.
    + apply key_eq_str in Hk0 as ->. simpl.
      by destruct (String.eqb k0 k).
    + rewrite IH. destruct (String.eqb_spec k0 k) as [->|Hne]; [|done].
      by rewrite Hk0.
Qed.

Lemma lookup_append_str k0 k item m :
  lookup (PStr k) (append (PStr k0) item m)
  = if String.eqb k0 k
    then (fun v => (v ++ [item])%list) <$> lookup (PStr k) m
    else lookup (PStr k) m.
Proof.
  induction m as [|[k' v'] m IH]; simpl.
  - by destruct (String.eqb k0 k).
  - destruct (key_eq k' (PStr k0)) eqn:Hk0; simpl.
    + apply key_eq_str in Hk0 as ->. simpl.
      by destruct (String.eqb k0 k).
    + rewrite IH. destruct (String.eqb_spec k0 k) as [->|Hne]; [|done].
      by rewrite Hk0.
Qed.

Lemma set_fresh k v m : lookup k m = None -> set k v m = (m ++ [(k, v)])%list.
Proof.
  induction m as [|[k' v'] m IH]; simpl; [done|].
  destruct (key_eq k' k); [discriminate|]. intros H. by rewrite IH.
Qed.

Lemma append_fresh k v item m :
  lookup k m = None -> key_eq k k = true ->
  append k item (m ++ [(k, v)])%list = (m ++ [(k, (v ++ [item])%list)])%list.
Proof.
  intros Hm Hk. induction m as [|[k' v'] m IH]; simpl.
  - by rewrite Hk.
  - simpl in Hm. destruct (key_eq k' k); [discriminate|]. by rewrite IH.
Qed.

Lemma lookup_set_eq k v m : key_eq k k = true -> lookup k (set k v m) = Some v.
Proof.
  intros Hk. induction m as [|[k' v'] m IH]; simpl.
  - by rewrite Hk.
  - destruct (key_eq k' k) eqn:E; simpl; by rewrite E.
Qed.

End DictFacts.

(** ** The CSV branch *)

Module CsvFacts.
Import Py Normalizer LoopFacts NormalizerFacts DictFacts Examples.

Lemma str_of_int_nonempty z : str_of_int z <> "".
Proof.
  unfold str_of_int. destruct (Z.to_int z) as [d|d]; simpl; [|discriminate].
  destruct d; discriminate.
Qed.

Section Csv.

Variable repr_ext : pyval -> string.

Lemma truthy_str s : truthy (PStr s) = true <-> s <> "".
Proof.
  simpl. rewrite negb_true_iff. apply String.eqb_neq.
Qed.

Lemma str_truthy_nonempty v :
  (forall w, repr_ext w <> "") -> truthy v = true -> str repr_ext v <> "".
Proof.
  intros Hrepr. destruct v as [|b|z|f|s|l|d]; simpl; try done.
  - by intros ->.
  - intros _. apply str_of_int_nonempty.
  - intros H%negb_true_iff. by apply String.eqb_neq.
Qed.

(** A row without a truthy id field has the empty id. *)
Lemma no_id_empty d : has_id d = false -> csv_id repr_ext d = "".
Proof.
  unfold has_id, csv_id, py_or. intros [H1 H2]%orb_false_iff.
  by rewrite H1, H2.
Qed.

Lemma id_nonempty d :
  (forall w, repr_ext w <> "") -> has_id d = true -> csv_id repr_ext d <> "".
Proof.
  unfold has_id, csv_id, py_or. intros Hrepr.
  destruct (truthy (get d "invoice_id")) eqn:H1; simpl.
  - intros _. rewrite H1. by apply str_truthy_nonempty.
  - intros H2. rewrite H2. by apply str_truthy_nonempty.
Qed.

(** A row without an id leaves the invoices as they are, whatever else it
    holds. *)
Lemma csv_step_no_id m d : has_id d = false -> csv_step repr_ext m (PDict d) = Ok m.
Proof.
  intros H. unfold csv_step. simpl. by rewrite (no_id_empty d H).
Qed.

Lemma csv_step_id m d :
  csv_id repr_ext d <> "" ->
  csv_step repr_ext m (PDict d)
  = csv_item repr_ext d ≫= fun item =>
      Ok (append (PStr (csv_id repr_ext d)) item
            (if contains (PStr (csv_id repr_ext d)) m then m
             else set (PStr (csv_id repr_ext d)) [] m)).
Proof.
  intros H. unfold csv_step. simpl.
  apply String.eqb_neq in H. by rewrite H.
Qed.

Lemma csv_loop_skips m rows :
  for_each (csv_step repr_ext) m (map PDict rows)
  = for_each (csv_step repr_ext) m (map PDict (List.filter has_id rows)).
Proof.
  revert m. induction rows as [|d rows IH]; intros m; [done|].
  simpl List.filter. destruct (has_id d) eqn:Hd.
  - simpl. destruct (csv_step repr_ext m (PDict d)); simpl; [apply IH | done].
  - change (for_each (csv_step repr_ext) m (map PDict (d :: rows)))
      with (csv_step repr_ext m (PDict d) ≫= fun m' => for_each (csv_step repr_ext) m' (map PDict rows)).
    rewrite (csv_step_no_id m d Hd). simpl. apply IH.
Qed.

Lemma csv_loop_lookup (Hrepr : forall w, repr_ext w <> "") rows : forall m invs,
  for_each (csv_step repr_ext) m (map PDict rows) = Ok invs ->
  forall k, exists items,
    mapM (csv_item repr_ext) (rows_of repr_ext k rows) = Ok items /\
    lookup (PStr k) invs =
      match lookup (PStr k) m with
      | Some old => Some (old ++ items)%list
      | None => match items with [] => None | _ => Some items end
      end.
Proof.
  induction rows as [|d rows IH]; intros m invs Hrun k.
  - injection Hrun as <-. exists []. split; [done|].
    destruct (lookup (PStr k) m); [by rewrite app_nil_r | done].
  - change (for_each (csv_step repr_ext) m (map PDict (d :: rows)))
      with (csv_step repr_ext m (PDict d) ≫= fun m' => for_each (csv_step repr_ext) m' (map PDict rows))
      in Hrun.
    unfold rows_of. simpl List.filter. destruct (has_id d) eqn:Hd.
    + pose proof (id_nonempty d Hrepr Hd) as Hid.
      rewrite (csv_step_id m d Hid) in Hrun.
      apply bind_Ok in Hrun as (m1 & Hstep & Hrun).
      apply bind_Ok in Hstep as (item & Hitem & Hm1). injection Hm1 as <-.
      destruct (IH _ _ Hrun k) as (items & Hitems & Hlook).
      rewrite lookup_append_str in Hlook.
      simpl List.filter.
      destruct (String.eqb_spec (csv_id repr_ext d) k) as [->|Hne].
      * exists (item :: items). split.
        { simpl. rewrite Hitem. simpl. fold (rows_of repr_ext k rows). by rewrite Hitems. }
        rewrite Hlook. unfold contains.
        destruct (lookup (PStr k) m) as [old|] eqn:Hm; simpl.
        { rewrite Hm. simpl. by rewrite <- app_assoc. }
        rewrite lookup_set_str, String.eqb_refl. done.
      * exists items. split; [exact Hitems|].
        rewrite Hlook. destruct (contains _ m); [done|].
        rewrite lookup_set_str. by apply String.eqb_neq in Hne as ->.
    + rewrite (csv_step_no_id m d Hd) in Hrun. simpl in Hrun.
      apply (IH _ _ Hrun k).
Qed.

Lemma csv_step_nonempty m row m' :
  values_nonempty m -> csv_step repr_ext m row = Ok m' -> values_nonempty m'.
Proof.
  intros Hm Hstep k its Hk. unfold csv_step in Hstep.
  apply bind_Ok in Hstep as (d & Hd & Hstep).
  destruct (negb _).
  { injection Hstep as <-. by eapply Hm. }
  apply bind_Ok in Hstep as (item & Hitem & Hstep). injection Hstep as <-.
  unfold contains in Hk.
  destruct (lookup (PStr (csv_id repr_ext d)) m) eqn:Hlook.
  - apply elem_of_append in Hk as [Hk|(its0 & Hk & ->)]; [by eapply Hm|].
    by destruct its0.
  - rewrite (set_fresh _ _ _ Hlook) in Hk.
    rewrite (append_fresh _ _ _ _ Hlook) in Hk by apply String.eqb_refl.
    apply elem_of_app in Hk as [Hk|Hk]; [by eapply Hm|].
    apply list_elem_of_singleton in Hk. by injection Hk as -> ->.
Qed.

End Csv.

End CsvFacts.

Module CsvClaims.
Import Py Normalizer LoopFacts NormalizerFacts DictFacts CsvFacts Examples.




(** C10.  In the CSV branch every key of the returned invoice set holds at
    least one line item.  The JSON branch gives no such guarantee: an array
    element whose [items] is the empty list leaves an invoice with no line
    item under its id. *)
Theorem csv_invoices_nonempty_json_may_be_empty :
  (forall repr data path invs,
     String.eqb (lower (Path.suffix path)) ".json" = false ->
     parse_invoices_from_data repr data path = Ok invs ->
     values_nonempty invs)
  /\ (forall repr front d path m,
       String.eqb (lower (Path.suffix path)) ".json" = true ->
       for_each json_step [] front = Ok m ->
       d !! "items" = Some (PList []) ->
       hashable (json_id m d) = true ->
       exists invs,
         parse_invoices_from_data repr (PList (front ++ [PDict d])) path = Ok invs /\
         lookup (json_id m d) invs = Some []).
Proof.
  split.
  - intros repr data path invs Hext. unfold parse_invoices_from_data. rewrite Hext.
    intros H. apply bind_Ok in H as (rows & _ & H). revert H.
    apply for_each_inv.
    + intros st x st' _. apply csv_step_nonempty.
    + intros k its Hk. by apply elem_of_nil in Hk.
  - intros repr front d path m Hext Hfront Hitems Hhash.
    unfold parse_invoices_from_data. rewrite Hext.
    rewrite for_each_app, Hfront. simpl.
    unfold json_step. simpl. unfold get_default at 1. rewrite Hitems. simpl.
    unfold setitem. rewrite Hhash. simpl.
    eexists. split; [reflexivity|].
    apply lookup_set_eq. by apply key_eq_refl.
Qed.

Lemma csv_invoices_nonempty_json_may_be_empty_witness :
  values_nonempty
    [(PStr "A1",
      [LineItem (PStr "Widget") (PStr "9.99") (PInt 2);
       LineItem (PStr "Bolt") (PStr "0.5") (PInt 10)])]
  /\ exists invs,
       parse_invoices_from_data repr_stub json_empty_items "invoices.json" = Ok invs /\
       lookup (PStr "A1") invs = Some [].
Proof.
  split.
  - exact (proj1 csv_invoices_nonempty_json_may_be_empty repr_stub
             (PList (map PDict csv_rows)) "a.csv" _ eq_refl eq_refl).
  - exact (proj2 csv_invoices_nonempty_json_may_be_empty repr_stub []
             (list_to_map [("id", PStr "A1"); ("items", PList [])])
             "invoices.json" [] eq_refl eq_refl eq_refl eq_refl).
Defined.

End CsvClaims.

(** ** The JSON branch *)

Module JsonClaims.
Import Py Normalizer LoopFacts NormalizerFacts DictFacts Examples.

Lemma json_item_spec d : json_item (PDict d) = Ok (spec_item d).
Proof.
  unfold json_item, spec_item, spec_product, spec_price, spec_qty, get_default.
  simpl. by repeat destruct (d !! _).
Qed.

Lemma items_spec d : get_default d "items" (PList [PDict d]) = spec_items d.
Proof. unfold get_default, spec_items. by destruct (d !! "items"). Qed.

Lemma mapM_json_item objs lis :
  mapM json_item objs = Ok lis ->
  exists its, objs = map PDict its /\ lis = map spec_item its.
Proof.
  revert lis. induction objs as [|o objs IH]; intros lis H; simpl in H.
  - injection H as <-. by exists [].
  - apply bind_Ok in H as (li & Hli & H).
    apply bind_Ok in H as (lis' & Hlis' & H). injection H as <-.
    destruct (IH _ Hlis') as (its & -> & ->).
    destruct o; try discriminate.
    rewrite json_item_spec in Hli. injection Hli as <-.
    by exists (d :: its).
Qed.

Lemma json_loop_spec l : forall m invs,
  for_each json_step m l = Ok invs ->
  exists tr,
    l = map (fun e => PDict (fst e)) tr /\
    Forall (fun e => iter (spec_items (fst e)) = Ok (map PDict (snd e))) tr /\
    invs = assign_all tr m.
Proof.
  induction l as [|inv l IH]; intros m invs H; simpl in H.
  - injection H as <-. by exists [].
  - apply bind_Ok in H as (m1 & Hstep & H).
    destruct (IH _ _ H) as (tr & -> & Htr & ->).
    unfold json_step in Hstep.
    apply bind_Ok in Hstep as (d & Hd & Hstep).
    destruct inv; try discriminate. injection Hd as ->.
    apply bind_Ok in Hstep as (objs & Hobjs & Hstep).
    apply bind_Ok in Hstep as (lis & Hlis & Hstep).
    unfold setitem in Hstep. destruct (hashable _); [|discriminate].
    injection Hstep as <-.
    destruct (mapM_json_item _ _ Hlis) as (its & -> & ->).
    rewrite items_spec in Hobjs.
    exists ((d, its) :: tr). split; [done|]. split; [|done].
    by constructor.
Qed.

(** C5.  When the JSON branch returns an invoice set for an array, every
    element of the array is an object [inv] whose line items are read from
    [inv.items] when that field is present and from [inv] itself otherwise,
    each item object giving product (else name, else the empty string),
    price (else 0) and qty (else quantity, else 1); the set is the result of
    storing these line items under each element's id in turn.  A root that
    is not an array gives the one invoice ["default"] with the placeholder
    item. *)
Theorem json_items_and_field_fallbacks repr data path invs :
  String.eqb (lower (Path.suffix path)) ".json" = true ->
  parse_invoices_from_data repr data path = Ok invs ->
  match data with
  | PList l =>
      exists tr,
        l = map (fun e => PDict (fst e)) tr /\
        Forall (fun e => iter (spec_items (fst e)) = Ok (map PDict (snd e))) tr /\
        invs = assign_all tr []
  | _ => invs = [(PStr "default", [LineItem (PStr "-") (PInt 0) (PInt 1)])]
  end.
Proof.
  intros Hext. unfold parse_invoices_from_data. rewrite Hext.
  destruct data; try (by intros H; injection H as <-).
  apply json_loop_spec.
Qed.

Lemma json_items_and_field_fallbacks_witness :
  (exists tr,
     [Examples.obj [("invoice_id", PStr "A1");
                    ("items", PList [Examples.obj [("name", PStr "Widget");
                                                   ("quantity", PInt 3)]])];
      Examples.obj [("product", PStr "Bolt"); ("price", PInt 2)]]
     = map (fun e => PDict (fst e)) tr /\
     Forall (fun e => iter (spec_items (fst e)) = Ok (map PDict (snd e))) tr /\
     [(PStr "A1", [LineItem (PStr "Widget") (PInt 0) (PInt 3)]);
      (PStr "1", [LineItem (PStr "Bolt") (PInt 2) (PInt 1)])]
     = assign_all tr [])
  /\ default_invoice = [(PStr "default", [LineItem (PStr "-") (PInt 0) (PInt 1)])].
Proof.
  split.
  - exact (json_items_and_field_fallbacks repr_stub json_two_invoices "invoices.json"
             _ eq_refl eq_refl).
  - exact (json_items_and_field_fallbacks repr_stub (PStr "hello") "invoices.json"
             _ eq_refl eq_refl).
Defined.

End JsonClaims.

(** ** File discovery *)

Module DiscoveryClaims.
Import Py Discovery Examples.

Lemma ascii_compare_N a b : Ascii.compare a b = N.compare (N_of_ascii a) (N_of_ascii b).
Proof. reflexivity. Qed.

Lemma string_leb_trans s1 s2 s3 :
  String.leb s1 s2 = true -> String.leb s2 s3 = true -> String.leb s1 s3 = true.
Proof.
  unfold String.leb. revert s2 s3.
  induction s1 as [|c1 s1 IH]; intros [|c2 s2] [|c3 s3]; simpl; try done.
  rewrite !ascii_compare_N.
  destruct (N.compare_spec (N_of_ascii c1) (N_of_ascii c2)) as [E12|L12|G12];
    destruct (N.compare_spec (N_of_ascii c2) (N_of_ascii c3)) as [E23|L23|G23];
    destruct (N.compare_spec (N_of_ascii c1) (N_of_ascii c3)) as [E13|L13|G13];
    try done; try lia.
  apply IH.
Qed.

#[export] Instance path_le_trans : Transitive path_le.
Proof. intros a b c. apply string_leb_trans. Qed.

#[export] Instance path_le_total : Total path_le.
Proof. intros a b. apply String.leb_total. Qed.

Lemma StronglySorted_filter {A} (R : relation A) (p : A -> bool) l :
  StronglySorted R l -> StronglySorted R (List.filter p l).
Proof.
  induction 1 as [|x l Hl IH Hx]; simpl; [constructor|].
  destruct (p x); [|done].
  constructor; [done|].
  apply Forall_forall. intros y Hy%list_elem_of_In%filter_In.
  rewrite Forall_forall in Hx. apply Hx, list_elem_of_In, Hy.
Qed.

Lemma sorted_strongly l : StronglySorted path_le (sorted l).
Proof. apply StronglySorted_merge_sort; apply _. Qed.

Lemma sorted_perm l : sorted l ≡ₚ l.
Proof. apply merge_sort_Permutation. Qed.

Lemma csv_not_json f : has_ext CSV_EXT f = true -> has_ext JSON_EXT f = false.
Proof.
  unfold has_ext, in_exts. simpl. rewrite !orb_false_r.
  intros [_ H%String.eqb_eq]%andb_true_iff. rewrite H.
  apply andb_false_r.
Qed.

(** The loop of [get_data_files] is two filters over the sorted entries. *)
Lemma scan_filter l : forall csv json,
  fold_left scan_step l (csv, json)
  = ((csv ++ List.filter (has_ext CSV_EXT) l)%list,
     (json ++ List.filter (has_ext JSON_EXT) l)%list).
Proof.
  induction l as [|f l IH]; intros csv json; simpl.
  - by rewrite !app_nil_r.
  - destruct (has_ext CSV_EXT f) eqn:Hc.
    + rewrite (csv_not_json f Hc), IH. by rewrite <- app_assoc.
    + destruct (has_ext JSON_EXT f); rewrite IH; [|done].
      by rewrite <- app_assoc.
Qed.

Lemma has_ext_one ext f :
  has_ext [ext] f = true <-> is_file f = true /\ lower (Path.suffix (name f)) = ext.
Proof.
  unfold has_ext, in_exts. simpl. rewrite orb_false_r, andb_true_iff.
  by rewrite String.eqb_eq.
Qed.

Lemma elem_of_filter_sorted ext entries f :
  f ∈ List.filter (has_ext [ext]) (sorted entries)
  <-> f ∈ entries /\ is_file f = true /\ lower (Path.suffix (name f)) = ext.
Proof.
  rewrite list_elem_of_In, filter_In, <- list_elem_of_In, has_ext_one.
  by rewrite (sorted_perm entries).
Qed.

Lemma elem_of_sorted_filter ext entries f :
  f ∈ sorted (List.filter (has_ext [ext]) entries)
  <-> f ∈ entries /\ is_file f = true /\ lower (Path.suffix (name f)) = ext.
Proof.
  rewrite (sorted_perm _), list_elem_of_In, filter_In, <- list_elem_of_In.
  by rewrite has_ext_one.
Qed.

Lemma filter_perm {A} (p : A -> bool) (l k : list A) :
  l ≡ₚ k -> List.filter p l ≡ₚ List.filter p k.
Proof.
  induction 1 as [|x l k _ IH|x y l|l k m _ IH1 _ IH2]; simpl.
  - done.
  - destruct (p x); [by constructor | done].
  - destruct (p x), (p y); try done. apply perm_swap.
  - by etrans.
Qed.



End DiscoveryClaims.

(** ** Menu selection *)

Module SelectClaims.
Import Py Shell.

Lemma accept_Some max_num s i :
  accept max_num s = Some i <->
  exists n, int_of_string (strip s) = Some n /\ 1 <= n <= max_num /\ i = n - 1.
Proof.
  unfold accept. destruct (int_of_string (strip s)) as [n|].
  - destruct (1 <=? n) eqn:H1; destruct (n <=? max_num) eqn:H2; simpl; split;
      try (intros [= <-]; exists n; split_and!; [done|lia|lia|done]);
      try discriminate;
      intros (n' & [= <-] & Hn & ->); try done; lia.
  - split; [discriminate | by intros (n & ? & _)].
Qed.

Lemma accept_None max_num s : accept max_num s = None <-> rejected max_num s.
Proof.
  unfold accept, rejected. destruct (int_of_string (strip s)) as [n|].
  - destruct (1 <=? n) eqn:H1; destruct (n <=? max_num) eqn:H2; simpl; split;
      try discriminate; try done;
      try (intros H; destruct (H n eq_refl); lia);
      intros _ m [= <-]; lia.
  - split; [intros _ m; discriminate | done].
Qed.

Lemma select_loop_retry prompt max_num bad : forall s i rest out,
  Forall (fun t => accept max_num t = None) bad ->
  accept max_num s = Some i ->
  select_loop prompt max_num (bad ++ s :: rest) out
  = (Ok i, Console rest (out ++ retries prompt max_num bad ++ [Input prompt])%list).
Proof.
  induction bad as [|t bad IH]; intros s i rest out Hbad Hs; simpl.
  - by rewrite Hs.
  - inversion Hbad as [|? ? Ht Hbad']; subst. rewrite Ht.
    rewrite (IH s i rest _ Hbad' Hs). by rewrite <- !app_assoc.
Qed.

Lemma select_loop_Ok prompt max_num lines : forall out i c',
  select_loop prompt max_num lines out = (Ok i, c') ->
  exists bad s,
    lines = (bad ++ s :: stdin c')%list /\
    Forall (fun t => accept max_num t = None) bad /\
    accept max_num s = Some i /\
    stdout c' = (out ++ retries prompt max_num bad ++ [Input prompt])%list.
Proof.
  induction lines as [|t lines IH]; intros out i c' H; simpl in H; [discriminate|].
  destruct (accept max_num t) as [j|] eqn:Ht.
  - injection H as <- <-. exists [], t. by split_and!.
  - destruct (IH _ _ _ H) as (bad & s & -> & Hbad & Hs & Hout).
    exists (t :: bad), s. split_and!; try done.
    + by constructor.
    + rewrite Hout. simpl. by rewrite <- !app_assoc.
Qed.

(** C8.  [select_option] returns only on an entry that [int] reads as some
    [n] with [1 <= n <= max_num], and then returns [n - 1]: all the entries
    before it were refused, each after a prompt and followed by the hint.
    An entry that is not numeric, or is 0, negative or above [max_num], only
    writes the prompt and the hint and leaves the selection where it was;
    and however many such entries come first, the first good one is
    returned. *)
Theorem select_option_in_range prompt max_num :
  (forall c i c',
     select_option prompt max_num c = (Ok i, c') ->
     exists bad s n,
       stdin c = (bad ++ s :: stdin c')%list /\
       Forall (rejected max_num) bad /\
       int_of_string (strip s) = Some n /\ 1 <= n <= max_num /\ i = n - 1 /\
       stdout c' = (stdout c ++ retries prompt max_num bad ++ [Input prompt])%list)
  /\ (forall s rest out,
       rejected max_num s ->
       select_option prompt max_num (Console (s :: rest) out)
       = select_option prompt max_num
           (Console rest (out ++ [Input prompt; Print (EnterNumber max_num)])%list))
  /\ (forall bad s n rest out,
       Forall (rejected max_num) bad ->
       int_of_string (strip s) = Some n -> 1 <= n <= max_num ->
       select_option prompt max_num (Console (bad ++ s :: rest) out)
       = (Ok (n - 1),
          Console rest (out ++ retries prompt max_num bad ++ [Input prompt])%list)).
Proof.
  split_and!.
  - intros c i c' H. unfold select_option in H.
    destruct (select_loop_Ok _ _ _ _ _ _ H) as (bad & s & Hin & Hbad & Hs & Hout).
    apply accept_Some in Hs as (n & Hn & Hrange & ->).
    exists bad, s, n. split_and!; try done; try lia.
    eapply Forall_impl; [exact Hbad|]. intros t Ht. by apply accept_None.
  - intros s rest out Hs%accept_None. unfold select_option. simpl. by rewrite Hs.
  - intros bad s n rest out Hbad Hn Hrange. unfold select_option. simpl.
    apply select_loop_retry.
    + eapply Forall_impl; [exact Hbad|]. intros t Ht. by apply accept_None.
    + apply accept_Some. by exists n.
Qed.

Lemma select_option_in_range_witness :
  select_option DataMenu 3 (Console ["abc"; "0"; "-2"; "4"; " 2 "; "1"] [])
  = (Ok 1,
     Console ["1"]
       ([] ++ retries DataMenu 3 ["abc"; "0"; "-2"; "4"] ++ [Input DataMenu])%list).
Proof.
  apply (proj2 (proj2 (select_option_in_range DataMenu 3))
           ["abc"; "0"; "-2"; "4"] " 2 " 2 ["1"] []).
  - rewrite !Forall_cons. split_and!; try apply Forall_nil_2;
      intros m Hm; vm_compute in Hm;
      first [discriminate | injection Hm as <-; lia].
  - reflexivity.
  - lia.
Defined.

End SelectClaims.

(** ** The run of the shell *)

Module ShellFacts.
Import Py Normalizer Discovery Shell LoopFacts.

Lemma io_bind_run {A B} (m : io A) (k : A -> io B) (c : console) :
  (m ≫= k) c =
  match m c with
  | (Ok a, c1) => k a c1
  | (Raise e, c1) => (Raise e, c1)
  end.
Proof. reflexivity. Qed.

Ltac io_step := repeat (rewrite io_bind_run; simpl).

(** One turn of the loop of [select_option]: the prompt and a line, then
    either the index or the hint and the next turn. *)
Lemma select_option_unfold prompt max_num c :
  select_option prompt max_num c =
  (s ← input prompt;
   match accept max_num s with
   | Some i => mret i
   | None => _ ← print (EnterNumber max_num); select_option prompt max_num
   end) c.
Proof.
  destruct c as [[|s rest] out]; [reflexivity|].
  unfold select_option. io_step. destruct (accept max_num s); [reflexivity|].
  io_step. by rewrite <- app_assoc.
Qed.

Lemma for_each_raise {S A} (body : S -> A -> result S) l : forall st e,
  for_each body st l = Raise e -> exists st' x, body st' x = Raise e.
Proof.
  induction l as [|x l IH]; intros st e H; simpl in H; [discriminate|].
  destruct (body st x) as [st1|e1] eqn:Hx; simpl in H.
  - by apply (IH st1).
  - injection H as <-. by exists st, x.
Qed.

Lemma mapM_raise {A B} (f : A -> result B) l : forall e,
  mapM f l = Raise e -> exists x, f x = Raise e.
Proof.
  induction l as [|x l IH]; intros e H; simpl in H; [discriminate|].
  destruct (f x) as [y|e1] eqn:Hx; simpl in H.
  - destruct (mapM f l) as [k|e2]; simpl in H; [discriminate|].
    injection H as <-. by apply IH.
  - injection H as <-. by exists x.
Qed.

Lemma int_no_exit v e : int v = Raise e -> ~ exits e.
Proof.
  intros H [code ->]. destruct v as [|b|z|f|s|l|d]; simpl in H; try discriminate.
  - by destruct f.
  - by destruct (int_of_string s).
Qed.

Lemma json_step_no_exit m inv e : json_step m inv = Raise e -> ~ exits e.
Proof.
  intros H [code ->]. unfold json_step in H.
  destruct inv; simpl in H; try discriminate.
  destruct (iter _) as [objs|e1] eqn:Hiter; simpl in H.
  - destruct (mapM json_item objs) as [lis|e2] eqn:Hlis; simpl in H.
    + unfold setitem in H. by destruct (hashable _).
    + injection H as ->. apply mapM_raise in Hlis as [x Hx].
      unfold json_item in Hx. by destruct x.
  - injection H as ->. by destruct (get_default d "items" _).
Qed.

Lemma csv_step_no_exit repr m row e : csv_step repr m row = Raise e -> ~ exits e.
Proof.
  intros H Hexit. unfold csv_step in H.
  destruct row; simpl in H; try (destruct Hexit as [code ->]; discriminate).
  destruct (negb _); [discriminate|].
  unfold csv_item in H.
  destruct (int _) as [z|e1] eqn:Hint; simpl in H; [discriminate|].
  injection H as ->. by apply int_no_exit in Hint.
Qed.

Lemma parse_no_exit repr data path e :
  parse_invoices_from_data repr data path = Raise e -> ~ exits e.
Proof.
  unfold parse_invoices_from_data. destruct (String.eqb _ _).
  - destruct data; try discriminate.
    intros (st & x & H)%for_each_raise. by eapply json_step_no_exit.
  - destruct (iter data) as [rows|e1] eqn:Hiter; simpl.
    + intros (st & x & H)%for_each_raise. by eapply csv_step_no_exit.
    + intros [= ->] [code ->]. by destruct data.
Qed.

Lemma select_loop_no_exit prompt max_num lines : forall out e c',
  select_loop prompt max_num lines out = (Raise e, c') -> e = EOFError.
Proof.
  induction lines as [|s lines IH]; intros out e c' H; simpl in H.
  - by injection H as <- _.
  - destruct (accept max_num s); [discriminate | by eapply IH].
Qed.

Lemma index_no_exit {A} (l : list A) i e : index l i = Raise e -> e = IndexError.
Proof.
  unfold index. destruct (if 0 <=? i then _ else _); [|by intros [= <-]].
  destruct (_ <=? i); [discriminate | by intros [= <-]].
Qed.

Lemma get_data_files_mkdir d : get_data_files (mkdir d) = get_data_files d.
Proof. by destruct d. Qed.

Lemma get_templates_mkdir d : get_templates (mkdir d) = get_templates d.
Proof. by destruct d. Qed.

Section Run.

Variable repr_ext : pyval -> string.
Variable sort_numbers : list pyval -> list pyval.
Variable load_csv : string -> pyval + string.
Variable load_json : string -> pyval + string.
Variable render_html : string -> pyval -> list line_item -> string + string.
Variable generate_pdf : string -> string -> unit + string.
Variable open_pdf : string -> unit + string.

Lemma print_items_Ok items : forall i c,
  exists out, print_items repr_ext i items c = (Ok tt, Console (stdin c) out).
Proof.
  induction items as [|x items IH]; intros i c; simpl.
  - exists (stdout c). by destruct c.
  - io_step.
    destruct (IH (i + 1) (Console (stdin c)
                (stdout c ++ [Print (MenuLine i (str repr_ext x))]))) as [out Hout].
    exists out. exact Hout.
Qed.

Lemma print_menu_Ok title items c :
  exists out, print_menu repr_ext title items c = (Ok tt, Console (stdin c) out).
Proof.
  unfold print_menu. io_step.
  destruct (print_items_Ok items 1 (Console (stdin c)
              (((stdout c ++ [Print Blank]) ++ [Print (Title title)]) ++ [Print Rule])))
    as [out ->].
  simpl. eauto.
Qed.

Lemma check_inputs_run fs c :
  check_inputs fs c =
  let dfs := data_files (data_dir fs) in
  let tpls := get_templates (templates_dir fs) in
  if bool_decide (dfs = []) then
    (Raise (SystemExit 1),
     Console (stdin c) (stdout c ++ [Print NoDataFiles; Print AddDataFiles]))
  else if bool_decide (tpls = []) then
    (Raise (SystemExit 1),
     Console (stdin c) (stdout c ++ [Print NoTemplates; Print AddTemplates]))
  else (Ok (dfs, tpls), c).
Proof.
  unfold check_inputs, data_files. simpl.
  rewrite get_data_files_mkdir, get_templates_mkdir.
  destruct (get_data_files (data_dir fs)) as [csv json].
  destruct (bool_decide _); [|destruct (bool_decide _)].
  - io_step. by rewrite <- app_assoc.
  - io_step. by rewrite <- app_assoc.
  - reflexivity.
Qed.

Lemma select_and_normalize_no_exit dfs tpls c e c' :
  select_and_normalize repr_ext load_csv load_json dfs tpls c = (Raise e, c') ->
  ~ exits e.
Proof.
  unfold select_and_normalize. io_step.
  destruct (print_menu_Ok DataMenu (map (fun f => PStr (name f)) dfs)
              (Console (stdin c)
                 (((stdout c ++ [Print BannerRule]) ++ [Print Banner]) ++ [Print BannerRule])))
    as [out1 ->].
  io_step.
  destruct (select_option DataMenu (len dfs) _) as [[i1|e1] c1] eqn:Hsel1.
  2:{ intros [= <- <-] [code ->]. by apply select_loop_no_exit in Hsel1. }
  io_step.
  destruct (index dfs i1) as [data_path|e2] eqn:Hidx1.
  2:{ intros [= <- <-] [code ->]. by apply index_no_exit in Hidx1. }
  io_step.
  destruct (print_menu_Ok TemplateMenu (map (fun f => PStr (name f)) tpls) c1) as [out2 ->].
  io_step.
  destruct (select_option TemplateMenu (len tpls) _) as [[i2|e3] c2] eqn:Hsel2.
  2:{ intros [= <- <-] [code ->]. by apply select_loop_no_exit in Hsel2. }
  io_step.
  destruct (index tpls i2) as [template_path|e4] eqn:Hidx2.
  2:{ intros [= <- <-] [code ->]. by apply index_no_exit in Hidx2. }
  io_step.
  destruct (if String.eqb _ _ then _ else _) as [raw|what].
  2:{ intros [= <- <-] [code Hc]. discriminate. }
  io_step.
  destruct (parse_invoices_from_data repr_ext raw (name data_path)) as [invs|e5] eqn:Hparse.
  - discriminate.
  - intros [= <- <-]. by eapply parse_no_exit.
Qed.

Lemma emit_invoice_run tpl invoices c r c' :
  invoices <> [] ->
  emit_invoice repr_ext sort_numbers render_html generate_pdf open_pdf tpl invoices c
    = (r, c') ->
  (r = Ok tt ->
     exists inv_ids i s html out,
       sorted_keys sort_numbers (keys invoices) = Ok inv_ids /\
       index inv_ids i = Ok (PStr s) /\
       generate_pdf html (output_path (sanitize s)) = inl tt /\
       stdout c' = (out ++ [Print (Saved (output_path (sanitize s))); Print Opened])%list)
  /\ (forall e, r = Raise e -> ~ exits e).
Proof.
  intros Hne. unfold emit_invoice.
  rewrite bool_decide_eq_false_2 by done. io_step.
  destruct (sorted_keys sort_numbers (keys invoices)) as [inv_ids|e1] eqn:Hsort.
  2:{ intros [= <- <-]. split; [discriminate|]. intros e [= <-] [code ->].
      unfold sorted_keys in Hsort. destruct (mapM as_str _); [discriminate|].
      destruct (_ <=? _)%nat; [discriminate|]. destruct (forallb _ _); discriminate. }
  io_step.
  destruct (print_menu_Ok InvoiceMenu inv_ids c) as [out1 ->]. io_step.
  destruct (select_option InvoiceMenu (len inv_ids) _) as [[i|e2] c1] eqn:Hsel.
  2:{ intros [= <- <-]. split; [discriminate|]. intros e [= <-] [code ->].
      by apply select_loop_no_exit in Hsel. }
  io_step.
  destruct (index inv_ids i) as [invoice_id|e3] eqn:Hidx.
  2:{ intros [= <- <-]. split; [discriminate|]. intros e [= <-] [code ->].
      by apply index_no_exit in Hidx. }
  io_step.
  destruct (lookup invoice_id invoices) as [items|].
  2:{ intros [= <- <-]. split; [discriminate|]. by intros e [= <-] [code Hc]. }
  io_step.
  destruct (render_html (name tpl) invoice_id items) as [html|what].
  2:{ intros [= <- <-]. split; [discriminate|]. by intros e [= <-] [code Hc]. }
  io_step.
  destruct (safe_id invoice_id) as [safe|e4] eqn:Hsafe.
  2:{ intros [= <- <-]. split; [discriminate|]. intros e [= <-] [code ->].
      by destruct invoice_id. }
  io_step.
  destruct (generate_pdf html (output_path safe)) as [[]|what] eqn:Hpdf.
  2:{ intros [= <- <-]. split; [discriminate|]. by intros e [= <-] [code Hc]. }
  io_step.
  destruct (open_pdf (output_path safe)) as [[]|what].
  2:{ intros [= <- <-]. split; [discriminate|]. by intros e [= <-] [code Hc]. }
  io_step. intros [= <- <-]. split; [|discriminate]. intros _.
  destruct invoice_id; try discriminate. injection Hsafe as <-.
  exists inv_ids, i, s, html, (stdout c1). by rewrite <- app_assoc.
Qed.

End Run.

End ShellFacts.

Module ShellClaims.
Import Py Normalizer Discovery Shell LoopFacts ShellFacts Examples.

Section Run.

Variable repr_ext : pyval -> string.
Variable sort_numbers : list pyval -> list pyval.
Variable load_csv : string -> pyval + string.
Variable load_json : string -> pyval + string.
Variable render_html : string -> pyval -> list line_item -> string + string.
Variable generate_pdf : string -> string -> unit + string.
Variable open_pdf : string -> unit + string.

Let run_main := main repr_ext sort_numbers load_csv load_json render_html generate_pdf open_pdf.
Let run_select := select_and_normalize repr_ext load_csv load_json.


Lemma sanitize_cons ch s : sanitize (String ch s) = String (safe_char ch) (sanitize s).
Proof. reflexivity. Qed.

Lemma sanitize_length s : String.length (sanitize s) = String.length s.
Proof.
  induction s as [|ch s IH]; [done|]. rewrite sanitize_cons. simpl. by rewrite IH.
Qed.

Lemma sanitize_get s : forall i ch,
  String.get i s = Some ch -> String.get i (sanitize s) = Some (safe_char ch).
Proof.
  induction s as [|a s IH]; intros i ch; [by destruct i|].
  rewrite sanitize_cons. destruct i as [|i]; simpl.
  - by intros [= ->].
  - apply IH.
Qed.


End Run.



End ShellClaims.

(** * Further properties *)

(** ** Decimal numerals read back by [int] *)

Module NumeralFacts.
Import Py.

Ltac digit_step :=
  simpl;
  match goal with
  | |- context [code ?ch - 48] =>
      let v := eval vm_compute in (code ch - 48) in
      change (code ch - 48) with v
  end;
  rewrite ?Nat.add_succ_r.

Ltac first_digit :=
  match goal with
  | |- context [0 * 10 + ?k] =>
      let v := eval vm_compute in (0 * 10 + k) in
      change (0 * 10 + k) with v
  end.

Lemma parse_digits_acc d : forall (acc : positive) cnt,
  parse_digits true (Z.pos acc) cnt (list_ascii_of_string (NilEmpty.string_of_uint d))
  = Some (Z.pos (Pos.of_uint_acc d acc), (cnt + Decimal.nb_digits d)%nat).
Proof.
  induction d; intros acc cnt;
    [simpl; by rewrite Nat.add_0_r|..];
    digit_step;
    match goal with
    | |- parse_digits true ?a _ _ = Some (Z.pos (Pos.of_uint_acc _ ?b), _) =>
        replace a with (Z.pos b) by lia
    end;
    by rewrite IHd.
Qed.

Lemma parse_digits_zero d : forall cnt,
  parse_digits true 0 cnt (list_ascii_of_string (NilEmpty.string_of_uint d))
  = Some (Z.of_N (Pos.of_uint d), (cnt + Decimal.nb_digits d)%nat).
Proof.
  induction d; intros cnt;
    [simpl; by rewrite Nat.add_0_r|..];
    digit_step; first_digit;
    first [ by rewrite IHd | by rewrite parse_digits_acc ].
Qed.

Lemma parse_digits_start d :
  d <> Decimal.Nil ->
  parse_digits false 0 0 (list_ascii_of_string (NilEmpty.string_of_uint d))
  = Some (Z.of_N (Pos.of_uint d), Decimal.nb_digits d).
Proof.
  intros Hd. destruct d; [done|..]; digit_step; first_digit;
    first [ by rewrite parse_digits_zero | by rewrite parse_digits_acc ].
Qed.

Lemma digits_length d : length (list_ascii_of_string (NilEmpty.string_of_uint d)) = Decimal.nb_digits d.
Proof. induction d; simpl; by rewrite ?IHd. Qed.

Lemma digits_not_space d : Forall (fun ch => isspace ch = false) (list_ascii_of_string (NilEmpty.string_of_uint d)).
Proof. induction d; simpl; constructor; done. Qed.

Lemma lstrip_id l : Forall (fun ch => isspace ch = false) l -> lstrip l = l.
Proof. destruct 1 as [|ch l Hch _]; simpl; [done | by rewrite Hch]. Qed.

Lemma strip_id s :
  Forall (fun ch => isspace ch = false) (list_ascii_of_string s) -> strip s = s.
Proof.
  intros H. unfold strip. rewrite (lstrip_id _ H).
  rewrite lstrip_id by (by apply Forall_rev).
  by rewrite rev_involutive, string_of_list_ascii_of_string.
Qed.

Lemma string_length_list s : String.length s = length (list_ascii_of_string s).
Proof. induction s; simpl; by rewrite ?IHs. Qed.

Lemma decimal_not_sign ch :
  isdecimal ch = true -> Ascii.eqb ch "-" = false /\ Ascii.eqb ch "+" = false.
Proof. by destruct ch as [[] [] [] [] [] [] [] []]. Qed.

Lemma int_of_string_unsigned s ch r :
  strip s = s -> list_ascii_of_string s = ch :: r -> isdecimal ch = true ->
  int_of_string s = parse_unsigned (ch :: r).
Proof.
  intros Hs Hl [H1 H2]%decimal_not_sign.
  unfold int_of_string. by rewrite Hs, Hl, H1, H2.
Qed.

Lemma digits_head d :
  d <> Decimal.Nil ->
  exists ch r,
    list_ascii_of_string (NilEmpty.string_of_uint d) = ch :: r /\ isdecimal ch = true.
Proof. intros Hd. destruct d; [done|..]; simpl; eauto. Qed.

Lemma int_of_string_digits d :
  d <> Decimal.Nil ->
  (Decimal.nb_digits d <= max_str_digits)%nat ->
  strip (NilEmpty.string_of_uint d) = NilEmpty.string_of_uint d /\
  int_of_string (NilEmpty.string_of_uint d) = Some (Z.of_N (Pos.of_uint d)).
Proof.
  intros Hd Hlen.
  assert (Hstrip : strip (NilEmpty.string_of_uint d) = NilEmpty.string_of_uint d)
    by apply strip_id, digits_not_space.
  split; [exact Hstrip|].
  destruct (digits_head d Hd) as (ch & r & Hl & Hch).
  rewrite (int_of_string_unsigned _ ch r Hstrip Hl Hch), <- Hl.
  unfold parse_unsigned. rewrite (parse_digits_start d Hd).
  apply Nat.leb_le in Hlen. by rewrite Hlen.
Qed.

(** [int] reads the decimal numeral of a positive number back. *)
Lemma int_of_string_numeral (p : positive) :
  (String.length (str_of_int (Z.pos p)) <= max_str_digits)%nat ->
  strip (str_of_int (Z.pos p)) = str_of_int (Z.pos p) /\
  int_of_string (str_of_int (Z.pos p)) = Some (Z.pos p).
Proof.
  unfold str_of_int. simpl Z.to_int. simpl NilZero.string_of_int.
  pose proof (DecimalPos.Unsigned.of_to p) as Hp.
  assert (Hd : Pos.to_uint p <> Decimal.Nil).
  { intros Hnil. rewrite Hnil in Hp. discriminate. }
  assert (Hs : NilZero.string_of_uint (Pos.to_uint p)
               = NilEmpty.string_of_uint (Pos.to_uint p)).
  { by destruct (Pos.to_uint p). }
  rewrite Hs, string_length_list, digits_length. intros Hlen.
  destruct (int_of_string_digits _ Hd Hlen) as [H1 H2].
  split; [exact H1|]. by rewrite H2, Hp.
Qed.

End NumeralFacts.

(** ** Menus and selection *)

Module SelectExtras.
Import Py Shell LoopFacts SelectClaims ShellFacts NumeralFacts Examples.

Lemma select_loop_eof prompt max_num lines : forall out e c',
  select_loop prompt max_num lines out = (Raise e, c') <->
  e = EOFError /\ Forall (fun t => accept max_num t = None) lines /\
  c' = Console [] (out ++ retries prompt max_num lines ++ [Input prompt])%list.
Proof.
  induction lines as [|t lines IH]; intros out e c'; simpl.
  - split.
    + intros [= <- <-]. by split_and!.
    + by intros (-> & _ & ->).
  - destruct (accept max_num t) as [i|] eqn:Ht.
    + split; [discriminate|]. intros (_ & H & _). inversion H; congruence.
    + rewrite IH, <- app_assoc. simpl. split.
      * intros (-> & H & ->). split_and!; [done | by constructor | done].
      * intros (-> & H & ->). inversion H; subst. by split_and!.
Qed.

(** X1.  [select_option] raises only [EOFError], and exactly when every line
    left on the input is refused: it has then read all of them, each after
    a prompt and followed by the hint, and prompted once more. *)
Theorem select_option_eof prompt max_num c e c' :
  select_option prompt max_num c = (Raise e, c') <->
  e = EOFError /\ Forall (rejected max_num) (stdin c) /\
  c' = Console [] (stdout c ++ retries prompt max_num (stdin c) ++ [Input prompt])%list.
Proof.
  unfold select_option. rewrite select_loop_eof.
  assert (Hiff : Forall (fun t => accept max_num t = None) (stdin c)
                 <-> Forall (rejected max_num) (stdin c)).
  { apply Forall_iff. intros t. apply accept_None. }
  by rewrite Hiff.
Qed.

(** X2.  With a list of length zero ([max_num < 1]) no entry is accepted:
    whatever is typed, the call ends in [EOFError] with the input used up. *)
Theorem select_option_empty_list prompt max_num c :
  max_num < 1 ->
  select_option prompt max_num c
  = (Raise EOFError,
     Console [] (stdout c ++ retries prompt max_num (stdin c) ++ [Input prompt])%list).
Proof.
  intros Hmax.
  destruct (select_option prompt max_num c) as [r c'] eqn:Hrun.
  assert (Hall : Forall (rejected max_num) (stdin c)).
  { apply Forall_forall. intros t _ m _. lia. }
  unfold select_option in Hrun.
  destruct r as [i|e].
  - apply select_loop_Ok in Hrun as (bad & s & _ & _ & Hs & _).
    apply accept_Some in Hs as (n & _ & Hn & _). lia.
  - apply select_loop_eof in Hrun as (-> & _ & ->). done.
Qed.

Lemma select_option_empty_list_witness :
  select_option InvoiceMenu 0 (Console ["1"; "0"] [])
  = (Raise EOFError,
     Console [] ([] ++ retries InvoiceMenu 0 ["1"; "0"] ++ [Input InvoiceMenu])%list).
Proof.
  apply (select_option_empty_list InvoiceMenu 0 (Console ["1"; "0"] [])). lia.
Defined.

Lemma accepted_index_valid {A} (l : list A) prompt c i c' :
  select_option prompt (len l) c = (Ok i, c') ->
  0 <= i < len l /\ exists x, index l i = Ok x /\ l !! Z.to_nat i = Some x.
Proof.
  unfold select_option. intros H.
  apply select_loop_Ok in H as (bad & s & _ & _ & Hs & _).
  apply accept_Some in Hs as (n & _ & Hn & ->).
  unfold len in *. split; [lia|].
  destruct (lookup_lt_is_Some_2 l (Z.to_nat (n - 1))) as [x Hx]; [lia|].
  exists x. split; [|done]. unfold index.
  replace (0 <=? n - 1) with true by lia. rewrite Hx.
  by replace (- Z.of_nat (length l) <=? n - 1) with true by lia.
Qed.

(** X3.  The index [select_option] returns for a list is a valid index of
    that list, so the subscript that follows it in [main] never raises. *)
Theorem selected_index_in_range {A} (l : list A) prompt c i c' :
  select_option prompt (len l) c = (Ok i, c') ->
  0 <= i < len l /\ exists x, index l i = Ok x /\ l !! Z.to_nat i = Some x.
Proof. apply accepted_index_valid. Qed.

Lemma selected_index_in_range_witness :
  0 <= 1 < len ["a.csv"; "b.json"]
  /\ exists x, index ["a.csv"; "b.json"] 1 = Ok x /\ ["a.csv"; "b.json"] !! Z.to_nat 1 = Some x.
Proof.
  exact (selected_index_in_range ["a.csv"; "b.json"] DataMenu
           (Console ["x"; "2"] []) 1 _ eq_refl).
Defined.

(** X4.  Typing the decimal numeral of a number [n] of the menu selects the
    entry of index [n - 1] at once: one prompt, one line read, no hint. *)
Theorem typed_number_selects prompt max_num n rest out :
  1 <= n <= max_num ->
  (String.length (str_of_int n) <= max_str_digits)%nat ->
  select_option prompt max_num (Console (str_of_int n :: rest) out)
  = (Ok (n - 1), Console rest (out ++ [Input prompt])%list).
Proof.
  intros Hn Hlen. destruct n as [|p|p]; try lia.
  destruct (int_of_string_numeral p Hlen) as [Hstrip Hint].
  unfold select_option. simpl.
  assert (Hacc : accept max_num (str_of_int (Z.pos p)) = Some (Z.pos p - 1)).
  { apply accept_Some. exists (Z.pos p). rewrite Hstrip. split_and!; try done; lia. }
  by rewrite Hacc.
Qed.

Lemma typed_number_selects_witness :
  select_option DataMenu 20 (Console [str_of_int 17; "1"] [])
  = (Ok (17 - 1), Console ["1"] ([] ++ [Input DataMenu])%list).
Proof.
  apply (typed_number_selects DataMenu 20 17 ["1"] []); [lia|].
  vm_compute. lia.
Defined.

Section Menu.

Variable repr_ext : pyval -> string.

Lemma print_items_lines items : forall i c,
  print_items repr_ext i items c
  = (Ok tt,
     Console (stdin c)
       (stdout c ++ imap (fun n x => Print (MenuLine (i + Z.of_nat n) (str repr_ext x))) items)).
Proof.
  induction items as [|x items IH]; intros i c; simpl.
  - rewrite app_nil_r. by destruct c.
  - io_step. rewrite IH. simpl. rewrite <- app_assoc. simpl.
    rewrite Z.add_0_r. do 4 f_equal.
    apply imap_ext. intros n y _. simpl. do 2 f_equal. lia.
Qed.

Lemma print_menu_out title items c :
  print_menu repr_ext title items c
  = (Ok tt,
     Console (stdin c)
       (stdout c ++ [Print Blank; Print (Title title); Print Rule]
        ++ imap (fun n x => Print (MenuLine (Z.of_nat n + 1) (str repr_ext x))) items
        ++ [Print Rule])).
Proof.
  assert (Himap :
    imap (fun n x => Print (MenuLine (1 + Z.of_nat n) (str repr_ext x))) items
    = imap (fun n x => Print (MenuLine (Z.of_nat n + 1) (str repr_ext x))) items).
  { apply imap_ext. intros n y _. simpl. do 2 f_equal. lia. }
  unfold print_menu. io_step. rewrite print_items_lines. simpl.
  unfold print, emit. simpl. rewrite Himap, <- !app_assoc. reflexivity.
Qed.


(** X6.  A menu followed by a selection over the same list, as [main] runs
    them: the element the returned index picks is the one whose line was
    shown with the number the user entered, index plus one. *)
Theorem shown_number_picks_item {A} (g : A -> pyval) (l : list A) title prompt c i c' :
  (_ ← print_menu repr_ext title (map g l); select_option prompt (len l)) c = (Ok i, c') ->
  exists x,
    index l i = Ok x /\
    Print (MenuLine (i + 1) (str repr_ext (g x))) ∈ stdout c'.
Proof.
  io_step. rewrite print_menu_out. simpl. intros Hsel.
  destruct (accepted_index_valid l prompt _ i c' Hsel) as (Hi & x & Hidx & Hx).
  exists x. split; [done|].
  unfold select_option in Hsel.
  apply select_loop_Ok in Hsel as (bad & s & _ & _ & _ & ->).
  assert (Hin : Print (MenuLine (i + 1) (str repr_ext (g x)))
                ∈ imap (fun n y => Print (MenuLine (Z.of_nat n + 1) (str repr_ext y)))
                    (map g l)).
  { apply list_elem_of_lookup. exists (Z.to_nat i).
    rewrite list_lookup_imap, list_lookup_fmap, Hx. simpl.
    do 3 f_equal. lia. }
  simpl. rewrite !elem_of_app, !elem_of_cons, !elem_of_app. tauto.
Qed.

End Menu.

Lemma shown_number_picks_item_witness :
  exists x,
    index ["a.csv"; "b.json"] 1 = Ok x /\
    Print (MenuLine (1 + 1) (str repr_stub (PStr x)))
    ∈ stdout (snd ((_ ← print_menu repr_stub DataMenu (map PStr ["a.csv"; "b.json"]);
                    select_option DataMenu (len ["a.csv"; "b.json"]))
                   (Console ["2"] []))).
Proof.
  exact (shown_number_picks_item repr_stub PStr ["a.csv"; "b.json"] DataMenu DataMenu
           (Console ["2"] []) 1 _ eq_refl).
Defined.

End SelectExtras.

(** ** More on the normalizer *)

Module NormalizerExtras.
Import Py Normalizer LoopFacts NormalizerFacts DictFacts CsvFacts JsonClaims
  ShellFacts Derived Examples.

Lemma keys_append k item m : keys (append k item m) = keys m.
Proof.
  induction m as [|[k' v'] m IH]; simpl; [done|].
  destruct (key_eq k' k); simpl; [done | by rewrite IH].
Qed.

Lemma lookup_None_fresh k m :
  lookup k m = None -> Forall (fun k' => key_eq k' k = false) (keys m).
Proof.
  induction m as [|[k' v'] m IH]; simpl; [constructor|].
  destruct (key_eq k' k) eqn:E; [discriminate|]. constructor; auto.
Qed.

Lemma keys_set k v m :
  keys (set k v m) = if contains k m then keys m else (keys m ++ [k])%list.
Proof.
  unfold contains. induction m as [|[k' v'] m IH]; simpl; [done|].
  destruct (key_eq k' k); simpl; [done|].
  rewrite IH. by destruct (lookup k m).
Qed.

Lemma elem_of_keys_set k v m k' : k' ∈ keys (set k v m) -> k' ∈ keys m \/ k' = k.
Proof.
  rewrite keys_set. destruct (contains k m); [by left|].
  rewrite elem_of_app, list_elem_of_singleton. tauto.
Qed.

Lemma ordpairs_snoc {A} (R : A -> A -> Prop) l x :
  ForallOrdPairs R l -> Forall (fun a => R a x) l -> ForallOrdPairs R (l ++ [x]).
Proof.
  induction 1 as [|a l Ha Hl IH]; intros Hx; simpl.
  - repeat constructor.
  - inversion Hx; subst. constructor; [|by apply IH].
    apply Forall_app. split; [done | by constructor].
Qed.

Lemma keys_distinct_set k v m : keys_distinct m -> keys_distinct (set k v m).
Proof.
  unfold keys_distinct. rewrite keys_set. unfold contains.
  destruct (lookup k m) eqn:Hk; [done|]. intros Hm.
  apply ordpairs_snoc; [done|]. by apply lookup_None_fresh.
Qed.

Lemma json_id_truthy m d : truthy (json_id m d) = true.
Proof.
  unfold json_id, py_or.
  destruct (truthy (get d "invoice_id")) eqn:H1; [by rewrite H1|].
  destruct (truthy (get d "id")) eqn:H2; [done|].
  simpl. apply negb_true_iff, String.eqb_neq, str_of_int_nonempty.
Qed.

Section Keys.

Variable repr_ext : pyval -> string.

Lemma json_step_keys m inv m' :
  Forall good_json_key (keys m) -> json_step m inv = Ok m' ->
  Forall good_json_key (keys m').
Proof.
  intros Hm Hstep. unfold json_step in Hstep.
  apply bind_Ok in Hstep as (d & Hd & Hstep).
  apply bind_Ok in Hstep as (objs & Hobjs & Hstep).
  apply bind_Ok in Hstep as (lis & Hlis & Hstep).
  unfold setitem in Hstep. destruct (hashable _) eqn:Hh; [|discriminate].
  injection Hstep as <-. apply Forall_forall. intros k Hk.
  apply elem_of_keys_set in Hk as [Hk| ->].
  - rewrite Forall_forall in Hm. by apply Hm.
  - split; [apply json_id_truthy | done].
Qed.

Lemma csv_step_keys m row m' :
  Forall good_csv_key (keys m) -> csv_step repr_ext m row = Ok m' ->
  Forall good_csv_key (keys m').
Proof.
  intros Hm Hstep. unfold csv_step in Hstep.
  apply bind_Ok in Hstep as (d & Hd & Hstep).
  destruct (negb _) eqn:Hid; [by injection Hstep as <-|].
  apply bind_Ok in Hstep as (item & Hitem & Hstep). injection Hstep as <-.
  rewrite keys_append. destruct (contains _ m); [done|].
  apply Forall_forall. intros k Hk.
  apply elem_of_keys_set in Hk as [Hk| ->].
  - rewrite Forall_forall in Hm. by apply Hm.
  - exists (csv_id repr_ext d). split; [done|].
    apply negb_false_iff in Hid. by apply (truthy_str _).
Qed.

(** X7.  What the keys of a returned invoice set are.  In the CSV branch
    every key is a string and is not empty.  In the JSON branch every key is
    a truthy, hashable value: never None, an empty string, a zero or False,
    and never a list or an object. *)
Theorem keys_of_invoice_set data path invs :
  parse_invoices_from_data repr_ext data path = Ok invs ->
  if String.eqb (lower (Path.suffix path)) ".json"
  then Forall good_json_key (keys invs)
  else Forall good_csv_key (keys invs).
Proof.
  unfold parse_invoices_from_data. destruct (String.eqb _ _).
  - destruct data; try (intros [= <-]; by repeat constructor).
    apply (for_each_inv (fun m => Forall good_json_key (keys m))); [|constructor].
    intros st x st' _. apply json_step_keys.
  - intros H. apply bind_Ok in H as (rows & _ & H). revert H.
    apply (for_each_inv (fun m => Forall good_csv_key (keys m))); [|constructor].
    intros st x st' _. apply csv_step_keys.
Qed.

Lemma json_step_distinct m inv m' :
  keys_distinct m -> json_step m inv = Ok m' -> keys_distinct m'.
Proof.
  intros Hm Hstep. unfold json_step in Hstep.
  apply bind_Ok in Hstep as (d & Hd & Hstep).
  apply bind_Ok in Hstep as (objs & Hobjs & Hstep).
  apply bind_Ok in Hstep as (lis & Hlis & Hstep).
  unfold setitem in Hstep. destruct (hashable _); [|discriminate].
  injection Hstep as <-. by apply keys_distinct_set.
Qed.

Lemma csv_step_distinct m row m' :
  keys_distinct m -> csv_step repr_ext m row = Ok m' -> keys_distinct m'.
Proof.
  intros Hm Hstep. unfold csv_step in Hstep.
  apply bind_Ok in Hstep as (d & Hd & Hstep).
  destruct (negb _); [by injection Hstep as <-|].
  apply bind_Ok in Hstep as (item & Hitem & Hstep). injection Hstep as <-.
  unfold keys_distinct. rewrite keys_append.
  destruct (contains _ m); [done | by apply keys_distinct_set].
Qed.

(** X8.  The returned invoice set is a dict: in both branches no key is
    equal ([==]) to a key that comes after it. *)
Theorem invoice_keys_distinct data path invs :
  parse_invoices_from_data repr_ext data path = Ok invs -> keys_distinct invs.
Proof.
  unfold parse_invoices_from_data. destruct (String.eqb _ _).
  - destruct data; try (intros [= <-]; by repeat constructor).
    apply (for_each_inv keys_distinct); [|constructor].
    intros st x st' _. apply json_step_distinct.
  - intros H. apply bind_Ok in H as (rows & _ & H). revert H.
    apply (for_each_inv keys_distinct); [|constructor].
    intros st x st' _. apply csv_step_distinct.
Qed.

End Keys.

Lemma item_count_snoc m k v :
  item_count (m ++ [(k, v)])%list = (item_count m + length v)%nat.
Proof.
  unfold item_count. induction m as [|[k' v'] m IH]; simpl; [lia|].
  rewrite IH. lia.
Qed.

Lemma item_count_append k item m :
  contains k m = true -> item_count (append k item m) = S (item_count m).
Proof.
  unfold contains, item_count. induction m as [|[k' v'] m IH]; simpl; [done|].
  destruct (key_eq k' k); simpl.
  - intros _. rewrite length_app. simpl. lia.
  - intros H. rewrite (IH H). lia.
Qed.

Lemma values_nonempty_count m : values_nonempty m -> (length m <= item_count m)%nat.
Proof.
  unfold item_count. induction m as [|[k v] m IH]; intros Hm; simpl; [lia|].
  assert (Hv : v <> []) by (eapply Hm; left).
  assert (Hm' : values_nonempty m).
  { intros k' its Hin. eapply Hm. right. exact Hin. }
  specialize (IH Hm'). destruct v; [done|]. simpl. lia.
Qed.

Lemma mapM_Raise_iff {A B} (f : A -> result B) (l : list A) e :
  mapM f l = Raise e <->
  exists front x back,
    l = (front ++ x :: back)%list /\
    Forall (fun y => exists b, f y = Ok b) front /\ f x = Raise e.
Proof.
  induction l as [|x l IH]; simpl.
  - split; [discriminate|]. intros (front & y & back & H & _). by destruct front.
  - destruct (f x) as [b|e1] eqn:Hx; simpl.
    + assert (Hl : (mapM f l ≫= fun k => mret (b :: k)) = Raise e <-> mapM f l = Raise e).
      { destruct (mapM f l); simpl; [done|]. split; by intros [= ->]. }
      rewrite Hl, IH. split.
      * intros (front & y & back & -> & Hfront & Hy).
        exists (x :: front), y, back. split_and!; [done | constructor; eauto | done].
      * intros (front & y & back & H & Hfront & Hy).
        destruct front as [|x' front]; simpl in H; injection H as -> ->; [congruence|].
        inversion Hfront; subst. by exists front, y, back.
    + split.
      * intros [= ->]. exists [], x, l. by split_and!.
      * intros (front & y & back & H & Hfront & Hy).
        destruct front as [|x' front]; simpl in H; injection H as -> ->; [congruence|].
        inversion Hfront as [|? ? [b Hb] ?]; subst. congruence.
Qed.

Section Csv.

Variable repr_ext : pyval -> string.
Hypothesis repr_nonempty : forall w, repr_ext w <> "".

Lemma csv_loop_count rows : forall m invs,
  for_each (csv_step repr_ext) m (map PDict rows) = Ok invs ->
  item_count invs = (item_count m + length (List.filter has_id rows))%nat.
Proof.
  induction rows as [|d rows IH]; intros m invs Hrun.
  - injection Hrun as <-. simpl. lia.
  - change (for_each (csv_step repr_ext) m (map PDict (d :: rows)))
      with (csv_step repr_ext m (PDict d) ≫= fun m' => for_each (csv_step repr_ext) m' (map PDict rows))
      in Hrun.
    simpl List.filter. destruct (has_id d) eqn:Hd.
    + pose proof (id_nonempty repr_ext d repr_nonempty Hd) as Hid.
      rewrite (csv_step_id repr_ext m d Hid) in Hrun.
      apply bind_Ok in Hrun as (m1 & Hstep & Hrun).
      apply bind_Ok in Hstep as (item & Hitem & Hm1). injection Hm1 as <-.
      rewrite (IH _ _ Hrun). simpl length.
      assert (Hstep : item_count
                (append (PStr (csv_id repr_ext d)) item
                   (if contains (PStr (csv_id repr_ext d)) m then m
                    else set (PStr (csv_id repr_ext d)) [] m))
              = S (item_count m)).
      { unfold contains.
        destruct (lookup (PStr (csv_id repr_ext d)) m) eqn:Hlook.
        - apply item_count_append. unfold contains. by rewrite Hlook.
        - rewrite (set_fresh _ _ _ Hlook).
          rewrite (append_fresh _ _ _ _ Hlook) by apply String.eqb_refl.
          rewrite item_count_snoc. simpl. lia. }
      rewrite Hstep. lia.
    + rewrite (csv_step_no_id repr_ext m d Hd) in Hrun. simpl in Hrun.
      by rewrite (IH _ _ Hrun).
Qed.

Lemma csv_loop_raise rows : forall m e,
  for_each (csv_step repr_ext) m (map PDict rows) = Raise e <->
  mapM (csv_item repr_ext) (List.filter has_id rows) = Raise e.
Proof.
  induction rows as [|d rows IH]; intros m e; [done|].
  change (for_each (csv_step repr_ext) m (map PDict (d :: rows)))
    with (csv_step repr_ext m (PDict d) ≫= fun m' => for_each (csv_step repr_ext) m' (map PDict rows)).
  simpl List.filter. destruct (has_id d) eqn:Hd.
  - pose proof (id_nonempty repr_ext d repr_nonempty Hd) as Hid.
    rewrite (csv_step_id repr_ext m d Hid).
    change (mapM (csv_item repr_ext) (d :: List.filter has_id rows))
      with (csv_item repr_ext d ≫= fun y =>
            mapM (csv_item repr_ext) (List.filter has_id rows) ≫= fun k => mret (y :: k)).
    destruct (csv_item repr_ext d) as [item|e1]; simpl; [|split; by intros [= ->]].
    rewrite IH. destruct (mapM _ _); simpl; [split; discriminate|].
    split; by intros [= ->].
  - rewrite (csv_step_no_id repr_ext m d Hd). simpl. apply IH.
Qed.

(** X9.  In the CSV branch every row that has an id gives exactly one line
    item and the others give none: the line items of all invoices together
    are as many as the rows with an id, and the invoices are at most as
    many. *)
Theorem csv_one_item_per_row rows path invs :
  String.eqb (lower (Path.suffix path)) ".json" = false ->
  parse_invoices_from_data repr_ext (PList (map PDict rows)) path = Ok invs ->
  item_count invs = length (List.filter has_id rows) /\
  (length invs <= length (List.filter has_id rows))%nat.
Proof.
  intros Hext. unfold parse_invoices_from_data. rewrite Hext. simpl. intros Hrun.
  pose proof (csv_loop_count rows [] invs Hrun) as Hcount. simpl in Hcount.
  split; [done|]. rewrite <- Hcount. apply values_nonempty_count.
  revert Hrun. apply (for_each_inv values_nonempty).
  - intros st x st' _. apply csv_step_nonempty.
  - intros k its Hk. by apply elem_of_nil in Hk.
Qed.


End Csv.

Lemma int_raise_kinds v e :
  int v = Raise e -> e = TypeError \/ e = ValueError \/ e = OverflowError.
Proof.
  destruct v as [|b|z|f|s|l|d]; simpl; try discriminate; try (intros [= <-]; tauto).
  - destruct f; simpl; try discriminate; intros [= <-]; tauto.
  - destruct (int_of_string s); [discriminate|]. intros [= <-]. tauto.
Qed.

Lemma json_step_raise_kinds m inv e :
  json_step m inv = Raise e -> e = AttributeError \/ e = TypeError.
Proof.
  unfold json_step. destruct inv; simpl; try (intros [= <-]; tauto).
  destruct (iter _) as [objs|e1] eqn:Hiter; simpl.
  - destruct (mapM json_item objs) as [lis|e2] eqn:Hlis; simpl.
    + unfold setitem. destruct (hashable _); [discriminate|]. intros [= <-]. tauto.
    + intros [= ->]. apply mapM_raise in Hlis as [x Hx].
      unfold json_item in Hx. destruct x; simpl in Hx; try discriminate;
        injection Hx as <-; tauto.
  - intros [= ->]. destruct (get_default d "items" _); simpl in Hiter;
      try discriminate; injection Hiter as <-; tauto.
Qed.

Section Kinds.

Variable repr_ext : pyval -> string.

Lemma csv_step_raise_kinds m row e :
  csv_step repr_ext m row = Raise e ->
  e = AttributeError \/ e = TypeError \/ e = ValueError \/ e = OverflowError.
Proof.
  unfold csv_step. destruct row; simpl; try (intros [= <-]; tauto).
  destruct (negb _); [discriminate|].
  unfold csv_item. destruct (int _) as [z|e1] eqn:Hint; simpl; [discriminate|].
  intros [= ->]. apply int_raise_kinds in Hint. tauto.
Qed.

(** X11.  The exceptions of the normalizer.  The JSON branch raises only
    [AttributeError] (an element or an item that is no object) or
    [TypeError] (items that cannot be iterated, an id that cannot be
    hashed); the CSV branch raises only these two, [ValueError] or
    [OverflowError] (a qty that [int] refuses). *)
Theorem normalizer_error_kinds data path e :
  parse_invoices_from_data repr_ext data path = Raise e ->
  if String.eqb (lower (Path.suffix path)) ".json"
  then e = AttributeError \/ e = TypeError
  else e = AttributeError \/ e = TypeError \/ e = ValueError \/ e = OverflowError.
Proof.
  unfold parse_invoices_from_data. destruct (String.eqb _ _).
  - destruct data; try discriminate.
    intros (st & x & H)%for_each_raise. by eapply json_step_raise_kinds.
  - destruct (iter data) as [rows|e1] eqn:Hiter; simpl.
    + intros (st & x & H)%for_each_raise. by eapply csv_step_raise_kinds.
    + intros [= ->]. destruct data; simpl in Hiter; try discriminate;
        injection Hiter as <-; tauto.
Qed.

Lemma csv_step_all_items (P : line_item -> Prop) m row m' :
  (forall d item, csv_item repr_ext d = Ok item -> P item) ->
  all_items P m -> csv_step repr_ext m row = Ok m' -> all_items P m'.
Proof.
  intros HP Hm Hstep k its it Hk Hit. unfold csv_step in Hstep.
  apply bind_Ok in Hstep as (d & Hd & Hstep).
  destruct (negb _).
  { injection Hstep as <-. by eapply Hm. }
  apply bind_Ok in Hstep as (item & Hitem & Hstep). injection Hstep as <-.
  assert (Hm' : forall k its it,
            (k, its) ∈ (if contains (PStr (csv_id repr_ext d)) m then m
                        else set (PStr (csv_id repr_ext d)) [] m) ->
            it ∈ its -> P it).
  { intros k1 its1 it1 H1 H2. destruct (contains _ m); [by eapply Hm|].
    apply elem_of_set in H1 as [H1| ->]; [by eapply Hm|].
    by apply elem_of_nil in H2. }
  apply elem_of_append in Hk as [Hk|(its0 & Hk & ->)]; [by eapply Hm'|].
  apply elem_of_app in Hit as [Hit|Hit]; [by eapply Hm'|].
  apply list_elem_of_singleton in Hit as ->. by eapply HP.
Qed.


End Kinds.

Lemma normalizer_error_kinds_witness :
  AttributeError = AttributeError \/ AttributeError = TypeError.
Proof.
  exact (normalizer_error_kinds repr_stub (PList [PInt 3]) "invoices.json"
           AttributeError eq_refl).
Defined.


Lemma csv_one_item_per_row_witness :
  item_count
    [(PStr "A1",
      [LineItem (PStr "Widget") (PStr "9.99") (PInt 2);
       LineItem (PStr "Bolt") (PStr "0.5") (PInt 10)])]
  = length (List.filter has_id csv_rows)
  /\ (length
        [(PStr "A1",
          [LineItem (PStr "Widget") (PStr "9.99") (PInt 2);
           LineItem (PStr "Bolt") (PStr "0.5") (PInt 10)])]
      <= length (List.filter has_id csv_rows))%nat.
Proof.
  apply (csv_one_item_per_row repr_stub (fun w H => eq_ind "?" (fun s => if String.eqb s "" then False else True) I _ H)
           csv_rows "a.csv" _ eq_refl eq_refl).
Defined.


Lemma keys_of_invoice_set_witness :
  Forall (good_csv_key)
    (keys [(PStr "A1",
            [LineItem (PStr "Widget") (PStr "9.99") (PInt 2);
             LineItem (PStr "Bolt") (PStr "0.5") (PInt 10)])]).
Proof.
  exact (keys_of_invoice_set repr_stub (PList (map PDict csv_rows)) "a.csv" _ eq_refl).
Defined.

Lemma invoice_keys_distinct_witness :
  keys_distinct
    [(PStr "A1", [LineItem (PStr "Widget") (PInt 0) (PInt 3)]);
     (PStr "1", [LineItem (PStr "Bolt") (PInt 2) (PInt 1)])].
Proof.
  exact (invoice_keys_distinct repr_stub json_two_invoices "invoices.json" _ eq_refl).
Defined.

End NormalizerExtras.

(** ** More on the JSON branch *)

Module JsonExtras.
Import Py Normalizer LoopFacts NormalizerFacts DictFacts CsvFacts JsonClaims
  NormalizerExtras Derived Examples.

(** One turn of the JSON loop over an object, when it returns. *)
Lemma json_step_object m d m' :
  json_step m (PDict d) = Ok m' ->
  exists its,
    iter (spec_items d) = Ok (map PDict its) /\
    hashable (json_id m d) = true /\
    m' = set (json_id m d) (map spec_item its) m.
Proof.
  unfold json_step. simpl. rewrite items_spec. intros Hstep.
  apply bind_Ok in Hstep as (objs & Hobjs & Hstep).
  apply bind_Ok in Hstep as (lis & Hlis & Hstep).
  unfold setitem in Hstep. destruct (hashable _) eqn:Hh; [|discriminate].
  injection Hstep as <-.
  destruct (mapM_json_item _ _ Hlis) as (its & -> & ->). by exists its.
Qed.

(** X13.  The last element of a JSON array is never lost: whatever ids came
    before it, the returned set holds, under the id the last element
    derives, exactly that element's line items (no items of an earlier
    element with the same id remain). *)
Theorem json_last_element_kept repr front d path invs :
  String.eqb (lower (Path.suffix path)) ".json" = true ->
  parse_invoices_from_data repr (PList (front ++ [PDict d])) path = Ok invs ->
  exists m its,
    for_each json_step [] front = Ok m /\
    iter (spec_items d) = Ok (map PDict its) /\
    lookup (json_id m d) invs = Some (map spec_item its).
Proof.
  intros Hext. unfold parse_invoices_from_data. rewrite Hext.
  rewrite for_each_app. intros H.
  apply bind_Ok in H as (m & Hm & H). simpl in H.
  apply bind_Ok in H as (m' & Hstep & H). injection H as <-.
  apply json_step_object in Hstep as (its & Hits & Hh & ->).
  exists m, its. split_and!; [done | done |].
  apply lookup_set_eq. by apply key_eq_refl.
Qed.

Lemma json_last_element_kept_witness :
  exists m its,
    for_each json_step []
      [obj [("id", PStr "1"); ("product", PStr "a")]; obj [("product", PStr "b")]] = Ok m /\
    iter (spec_items (list_to_map [("product", PStr "c")])) = Ok (map PDict its) /\
    lookup (json_id m (list_to_map [("product", PStr "c")]))
      [(PStr "1", [LineItem (PStr "c") (PInt 0) (PInt 1)])]
    = Some (map spec_item its).
Proof.
  exact (json_last_element_kept repr_stub
           [obj [("id", PStr "1"); ("product", PStr "a")]; obj [("product", PStr "b")]]
           (list_to_map [("product", PStr "c")]) "invoices.json" _ eq_refl eq_refl).
Defined.

Lemma explicit_json_id m d s :
  explicit_id d = PStr s -> s <> "" -> json_id m d = PStr s.
Proof.
  unfold json_id, explicit_id. intros -> Hs. unfold py_or at 1.
  by rewrite (proj2 (truthy_str s) Hs).
Qed.

Lemma json_loop_other_ids ds ids s :
  states_ids ds ids -> s ∉ ids -> forall m invs,
  for_each json_step m (map PDict ds) = Ok invs ->
  lookup (PStr s) invs = lookup (PStr s) m.
Proof.
  induction 1 as [|d0 s0 ds0 ids0 [Hd0 Hs0] _ IH]; intros Hnot m invs Hrun.
  - by injection Hrun as <-.
  - change (for_each json_step m (map PDict (d0 :: ds0)))
      with (json_step m (PDict d0) ≫= fun m' => for_each json_step m' (map PDict ds0))
      in Hrun.
    apply bind_Ok in Hrun as (m1 & Hstep & Hrun).
    apply json_step_object in Hstep as (its0 & _ & _ & ->).
    rewrite (explicit_json_id m d0 s0 Hd0 Hs0) in Hrun.
    apply not_elem_of_cons in Hnot as [Hne Hnot].
    rewrite (IH Hnot _ _ Hrun), lookup_set_str.
    by destruct (String.eqb_spec s0 s) as [->|_].
Qed.

Lemma json_loop_distinct ds ids :
  states_ids ds ids -> NoDup ids -> forall m invs,
  (forall s, s ∈ ids -> lookup (PStr s) m = None) ->
  for_each json_step m (map PDict ds) = Ok invs ->
  keys invs = (keys m ++ map PStr ids)%list /\
  forall i d s, ds !! i = Some d -> ids !! i = Some s ->
    exists its,
      iter (spec_items d) = Ok (map PDict its) /\
      lookup (PStr s) invs = Some (map spec_item its).
Proof.
  induction 1 as [|d s ds ids [Hd Hs] Hrest IH]; intros Hnodup m invs Hfresh Hrun.
  - injection Hrun as <-. split; [by rewrite app_nil_r | by intros i d s [=]].
  - apply NoDup_cons in Hnodup as [Hnotin Hnodup].
    change (for_each json_step m (map PDict (d :: ds)))
      with (json_step m (PDict d) ≫= fun m' => for_each json_step m' (map PDict ds)) in Hrun.
    apply bind_Ok in Hrun as (m1 & Hstep & Hrun).
    apply json_step_object in Hstep as (its & Hits & _ & ->).
    rewrite (explicit_json_id m d s Hd Hs) in Hrun.
    assert (Hm : lookup (PStr s) m = None) by (apply Hfresh; left).
    assert (Hfresh1 : forall s', s' ∈ ids ->
              lookup (PStr s') (set (PStr s) (map spec_item its) m) = None).
    { intros s' Hin. rewrite lookup_set_str.
      destruct (String.eqb_spec s s') as [->|Hne]; [done|].
      apply Hfresh. by right. }
    destruct (IH Hnodup _ _ Hfresh1 Hrun) as [Hkeys Hlook].
    split.
    + rewrite Hkeys, keys_set. unfold contains. rewrite Hm.
      by rewrite <- app_assoc.
    + intros [|i] d' s' Hd' Hs'; simpl in Hd', Hs'.
      * injection Hd' as <-. injection Hs' as <-. exists its. split; [done|].
        rewrite (json_loop_other_ids ds ids s Hrest Hnotin _ _ Hrun).
        by rewrite lookup_set_str, String.eqb_refl.
      * by eapply Hlook.
Qed.

(** X14.  When the elements of a JSON array state ids ([invoice_id], else
    [id]) that are non-empty strings, all different, nothing collides: the
    keys of the returned set are these ids in the order of the array, and
    each id holds the line items of its own element. *)
Theorem json_distinct_ids_kept repr ds ids path invs :
  String.eqb (lower (Path.suffix path)) ".json" = true ->
  states_ids ds ids -> NoDup ids ->
  parse_invoices_from_data repr (PList (map PDict ds)) path = Ok invs ->
  keys invs = map PStr ids /\
  forall i d s, ds !! i = Some d -> ids !! i = Some s ->
    exists its,
      iter (spec_items d) = Ok (map PDict its) /\
      lookup (PStr s) invs = Some (map spec_item its).
Proof.
  intros Hext Hids Hnodup. unfold parse_invoices_from_data. rewrite Hext.
  intros Hrun. by apply (json_loop_distinct ds ids Hids Hnodup [] invs).
Qed.

Lemma json_distinct_ids_kept_witness :
  keys [(PStr "A1", [LineItem (PStr "Widget") (PInt 0) (PInt 3)]);
        (PStr "B2", [LineItem (PStr "Bolt") (PInt 2) (PInt 1)])]
  = map PStr ["A1"; "B2"].
Proof.
  refine (proj1 (json_distinct_ids_kept repr_stub json_two_ids ["A1"; "B2"]
                   "invoices.json" _ eq_refl _ _ eq_refl)).
  - repeat constructor; done.
  - apply NoDup_cons_2; [|apply NoDup_singleton].
    rewrite list_elem_of_singleton. discriminate.
Defined.

End JsonExtras.

(** ** More on file discovery *)

Module DiscoveryExtras.
Import Py Discovery DiscoveryClaims Examples.

Lemma data_files_filters dir :
  data_files dir
  = (List.filter (has_ext CSV_EXT) (sorted (default [] dir))
     ++ List.filter (has_ext JSON_EXT) (sorted (default [] dir)))%list.
Proof.
  unfold data_files. destruct dir as [entries|]; simpl; [|done].
  by rewrite scan_filter.
Qed.

Lemma get_data_files_filters dir :
  get_data_files dir
  = (List.filter (has_ext CSV_EXT) (sorted (default [] dir)),
     List.filter (has_ext JSON_EXT) (sorted (default [] dir))).
Proof.
  destruct dir as [entries|]; simpl; [|done]. by rewrite scan_filter.
Qed.

(** X15.  Every data file offered is a regular file whose lowercased suffix
    is exactly one of [.csv] and [.json], so the loader [main] picks and
    the branch the normalizer takes always agree; no file is in both
    lists, and a directory without repeated entries gives a menu without
    repeated files. *)
Theorem data_files_one_format dir :
  (forall f, f ∈ data_files dir ->
     is_file f = true /\
     let ext := lower (Path.suffix (name f)) in
     (String.eqb ext ".csv" = true /\ String.eqb ext ".json" = false) \/
     (String.eqb ext ".csv" = false /\ String.eqb ext ".json" = true))
  /\ (forall f, f ∈ fst (get_data_files dir) -> f ∉ snd (get_data_files dir))
  /\ (NoDup (default [] dir) -> NoDup (data_files dir)).
Proof.
  rewrite data_files_filters, get_data_files_filters. simpl. split_and!.
  - intros f [Hf|Hf]%elem_of_app; apply elem_of_filter_sorted in Hf as (_ & Hfile & Hext);
      (split; [done|]); rewrite Hext; [left | right]; done.
  - intros f Hc Hj.
    apply list_elem_of_In, filter_In in Hc as [_ Hc].
    apply list_elem_of_In, filter_In in Hj as [_ Hj].
    by rewrite (csv_not_json f Hc) in Hj.
  - intros Hnodup.
    assert (Hs : NoDup (sorted (default [] dir))) by by rewrite sorted_perm.
    apply NoDup_app. split_and!.
    + by apply NoDup_ListNoDup, List.NoDup_filter, NoDup_ListNoDup.
    + intros f Hc Hj.
      apply list_elem_of_In, filter_In in Hc as [_ Hc].
      apply list_elem_of_In, filter_In in Hj as [_ Hj].
      by rewrite (csv_not_json f Hc) in Hj.
    + by apply NoDup_ListNoDup, List.NoDup_filter, NoDup_ListNoDup.
Qed.

Lemma data_files_one_format_witness :
  NoDup (data_files (Some sample_dir)).
Proof.
  apply (proj2 (proj2 (data_files_one_format (Some sample_dir)))).
  apply NoDup_ListNoDup. repeat (constructor; [simpl; intuition discriminate|]).
  constructor.
Defined.

Lemma substring_all s : substring 0 (String.length s) s = s.
Proof. induction s as [|a s IH]; simpl; [done | by rewrite IH]. Qed.

Lemma substring_split s : forall i,
  (i <= String.length s)%nat ->
  s = substring 0 i s ++ substring i (String.length s - i) s.
Proof.
  induction s as [|ch s IH]; intros i Hi; simpl in Hi.
  - by destruct i.
  - destruct i as [|i].
    + simpl. by rewrite substring_all.
    + simpl.
      change (String ch s
              = String ch (substring 0 i s ++ substring i (String.length s - i) s)).
      f_equal. apply IH. lia.
Qed.

Lemma substring_length s : forall i m,
  (i + m <= String.length s)%nat -> String.length (substring i m s) = m.
Proof.
  induction s as [|ch s IH]; intros i m H; simpl in H.
  - destruct i; destruct m; simpl; lia.
  - destruct i as [|i]; simpl.
    + destruct m as [|m]; simpl; [done|]. f_equal. apply (IH 0%nat). lia.
    + apply IH. lia.
Qed.

Lemma rfind_dot_bound s : forall pos i,
  Path.rfind_dot s pos = Some i -> (pos <= i < pos + String.length s)%nat.
Proof.
  induction s as [|ch s IH]; intros pos i; simpl; [discriminate|].
  destruct (Path.rfind_dot s (S pos)) as [j|] eqn:Hj.
  - intros [= <-]. apply IH in Hj. lia.
  - destruct (Ascii.eqb ch "."); [|discriminate]. intros [= <-]. lia.
Qed.

(** A suffix that is not empty leaves a stem that is not empty before it. *)
Lemma suffix_stem nm :
  Path.suffix nm <> "" ->
  exists stem, stem <> "" /\ nm = stem ++ Path.suffix nm.
Proof.
  unfold Path.suffix.
  destruct (Path.rfind_dot nm 0) as [i|] eqn:Hi; [|done].
  destruct ((0 <? i)%nat && (i <? String.length nm - 1)%nat) eqn:Hrange; [|done].
  intros _. apply andb_true_iff in Hrange as [H0 H1].
  apply Nat.ltb_lt in H0. apply Nat.ltb_lt in H1.
  exists (substring 0 i nm). split.
  - intros Hempty.
    assert (Hlen : String.length (substring 0 i nm) = i) by (apply substring_length; lia).
    rewrite Hempty in Hlen. simpl in Hlen. lia.
  - apply substring_split. lia.
Qed.

Lemma lower_nonempty s : lower s <> "" -> s <> "".
Proof. by destruct s. Qed.

(** X16.  A discovered file always has a name before its suffix: an entry
    whose whole name is the extension (a hidden file [.csv], [.json] or
    [.html]) is never listed. *)
Theorem discovered_name_has_stem data_dir templates_dir f :
  f ∈ data_files data_dir \/ f ∈ get_templates templates_dir ->
  exists stem, stem <> "" /\ name f = stem ++ Path.suffix (name f).
Proof.
  intros Hf. apply suffix_stem, lower_nonempty.
  destruct Hf as [Hf|Hf].
  - rewrite data_files_filters in Hf.
    apply elem_of_app in Hf as [Hf|Hf];
      apply elem_of_filter_sorted in Hf as (_ & _ & ->); done.
  - destruct templates_dir as [entries|]; simpl in Hf; [|by apply elem_of_nil in Hf].
    apply elem_of_sorted_filter in Hf as (_ & _ & ->). done.
Qed.

Lemma discovered_name_has_stem_witness :
  exists stem, stem <> "" /\ "a.CSV" = stem ++ Path.suffix "a.CSV".
Proof.
  apply (discovered_name_has_stem (Some sample_dir) None (Dirent "a.CSV" true)).
  left. apply list_elem_of_In. simpl. tauto.
Defined.

End DiscoveryExtras.

(** ** More on the shell *)

Module ShellExtras.
Import Py Normalizer Discovery Shell LoopFacts NormalizerFacts DictFacts CsvFacts
  DiscoveryClaims SelectClaims ShellFacts SelectExtras NormalizerExtras Derived
  Reports Examples.

Lemma safe_char_safe ch : safe (safe_char ch) = true.
Proof.
  unfold safe_char. fold (safe ch). by destruct (safe ch) eqn:H.
Qed.

Lemma safe_char_fixed ch : safe ch = true -> safe_char ch = ch.
Proof. unfold safe_char. fold (safe ch). by intros ->. Qed.

Lemma sanitize_step ch s : sanitize (String ch s) = String (safe_char ch) (sanitize s).
Proof. reflexivity. Qed.

(** X17.  The sanitized id holds only characters that are alphanumeric, a
    hyphen or an underscore, so no slash, backslash or dot: the PDF can
    only land in the output directory itself.  Sanitizing twice changes
    nothing more. *)
Theorem sanitize_only_safe_chars s :
  (forall i ch, String.get i (sanitize s) = Some ch ->
     safe ch = true /\ ch <> "/"%char /\ ch <> "\"%char /\ ch <> "."%char)
  /\ sanitize (sanitize s) = sanitize s.
Proof.
  split.
  - induction s as [|a s IH]; intros i ch; [by destruct i|].
    rewrite sanitize_step. destruct i as [|i]; simpl; [|apply IH].
    intros [= <-]. pose proof (safe_char_safe a) as Hsafe.
    split; [done|]. split_and!; intros Heq; rewrite Heq in Hsafe; discriminate.
  - induction s as [|a s IH]; [done|].
    rewrite !sanitize_step, IH. f_equal.
    apply safe_char_fixed, safe_char_safe.
Qed.

Lemma filter_report_items (f : nat -> pyval -> event) (items : list pyval) :
  (forall n x, is_report (f n x) = false) ->
  List.filter is_report (imap f items) = [].
Proof.
  revert f. induction items as [|x items IH]; intros f Hf; simpl; [done|].
  rewrite Hf. apply IH. intros n y. apply Hf.
Qed.

Lemma filter_report_retries prompt max_num bad :
  List.filter is_report (retries prompt max_num bad) = [].
Proof. induction bad as [|t bad IH]; simpl; done. Qed.

Lemma select_option_stdout prompt max_num c r c' :
  select_option prompt max_num c = (r, c') ->
  exists bad, stdout c' = (stdout c ++ retries prompt max_num bad ++ [Input prompt])%list.
Proof.
  unfold select_option. destruct r as [i|e]; intros H.
  - apply select_loop_Ok in H as (bad & s & _ & _ & _ & ->). by exists bad.
  - apply select_loop_eof in H as (_ & _ & ->). by exists (stdin c).
Qed.

Section Emit.

Variable repr_ext : pyval -> string.
Variable sort_numbers : list pyval -> list pyval.
Variable render_html : string -> pyval -> list line_item -> string + string.
Variable generate_pdf : string -> string -> unit + string.
Variable open_pdf : string -> unit + string.

(** What the menu and the selection of the invoice write holds no report. *)
Lemma menu_and_selection_quiet title items prompt max_num bad :
  List.filter is_report
    (([Print Blank; Print (Title title); Print Rule]
      ++ imap (fun n x => Print (MenuLine (Z.of_nat n + 1) (str repr_ext x))) items
      ++ [Print Rule])
     ++ retries prompt max_num bad ++ [Input prompt])%list = [].
Proof.
  rewrite !List.filter_app, filter_report_retries, filter_report_items by done.
  reflexivity.
Qed.

(** X18.  The last stage reports a PDF as saved only after [generate_pdf]
    has returned for that path, and as opened only after [open_pdf] has
    returned too.  A failure of the viewer is not swallowed: it is raised,
    after the saved line and without the opened line.  A run that fails
    earlier, or finds no invoice, reports nothing. *)
Theorem reports_follow_success tpl invoices c r c' :
  emit_invoice repr_ext sort_numbers render_html generate_pdf open_pdf tpl invoices c
    = (r, c') ->
  exists new,
    stdout c' = (stdout c ++ new)%list /\
    ((List.filter is_report new = [] /\ r <> Ok tt) \/
     exists path html,
       generate_pdf html path = inl tt /\
       ((List.filter is_report new = [Print (Saved path)] /\
         exists what, open_pdf path = inr what /\ r = Raise (External what)) \/
        (List.filter is_report new = [Print (Saved path); Print Opened] /\
         open_pdf path = inl tt /\ r = Ok tt))).
Proof.
  unfold emit_invoice. case_bool_decide as Hempty.
  { io_step. intros [= <- <-]. exists [Print NoInvoices]. split; [done|]. by left. }
  io_step.
  destruct (sorted_keys sort_numbers (keys invoices)) as [inv_ids|e1].
  2:{ intros [= <- <-]. exists []. split; [by rewrite app_nil_r|]. by left. }
  io_step. rewrite (print_menu_out repr_ext). io_step.
  destruct (select_option InvoiceMenu (len inv_ids) _) as [res c1] eqn:Hsel.
  assert (Hq : exists q, stdout c1 = (stdout c ++ q)%list /\ List.filter is_report q = []).
  { apply select_option_stdout in Hsel as [bad Hout]. cbn [stdout] in Hout.
    rewrite <- app_assoc in Hout. eexists. split; [exact Hout|].
    apply (menu_and_selection_quiet InvoiceMenu inv_ids InvoiceMenu (len inv_ids) bad). }
  destruct Hq as (q & Hout & Hquiet). clear Hsel.
  assert (Hfail : forall e, r = Raise e -> c' = c1 ->
            exists new, stdout c' = (stdout c ++ new)%list /\
              ((List.filter is_report new = [] /\ r <> Ok tt) \/
               exists path html, generate_pdf html path = inl tt /\
                 ((List.filter is_report new = [Print (Saved path)] /\
                   exists what, open_pdf path = inr what /\ r = Raise (External what)) \/
                  (List.filter is_report new = [Print (Saved path); Print Opened] /\
                   open_pdf path = inl tt /\ r = Ok tt)))).
  { intros e -> ->. exists q. split; [exact Hout|]. by left. }
  destruct res as [i|e2].
  2:{ intros [= <- <-]. by eapply Hfail. }
  io_step.
  destruct (index inv_ids i) as [invoice_id|e3].
  2:{ intros [= <- <-]. by eapply Hfail. }
  io_step.
  destruct (lookup invoice_id invoices) as [items|].
  2:{ intros [= <- <-]. by eapply Hfail. }
  io_step.
  destruct (render_html (name tpl) invoice_id items) as [html|what].
  2:{ intros [= <- <-]. by eapply Hfail. }
  io_step.
  destruct (safe_id invoice_id) as [safe_name|e4].
  2:{ intros [= <- <-]. by eapply Hfail. }
  io_step.
  destruct (generate_pdf html (output_path safe_name)) as [[]|what] eqn:Hpdf.
  2:{ intros [= <- <-]. by eapply Hfail. }
  io_step.
  destruct (open_pdf (output_path safe_name)) as [[]|what] eqn:Hopen.
  - io_step. intros [= <- <-]. cbn [stdout]. rewrite Hout.
    exists (q ++ [Print (Saved (output_path safe_name)); Print Opened])%list.
    split; [by rewrite <- !app_assoc|].
    right. exists (output_path safe_name), html. split; [done|]. right.
    split_and!; [|done|done]. by rewrite List.filter_app, Hquiet.
  - intros [= <- <-]. cbn [stdout]. rewrite Hout.
    exists (q ++ [Print (Saved (output_path safe_name))])%list.
    split; [by rewrite <- !app_assoc|].
    right. exists (output_path safe_name), html. split; [done|]. left.
    split; [by rewrite List.filter_app, Hquiet | by exists what].
Qed.

End Emit.

#[export] Instance str_le_trans : Transitive str_le.
Proof. intros a b c. apply string_leb_trans. Qed.

#[export] Instance str_le_total : Total str_le.
Proof. intros a b. apply String.leb_total. Qed.

Lemma csv_keys_as_str ks :
  Forall good_csv_key ks -> exists ids, ks = map PStr ids /\ mapM as_str ks = Some ids.
Proof.
  induction 1 as [|k ks (s & -> & _) _ (ids & -> & Hids)].
  - by exists [].
  - exists (s :: ids). split; [done|]. simpl. by rewrite Hids.
Qed.

Lemma lookup_of_str_key s m :
  PStr s ∈ keys m -> exists k v, lookup (PStr s) m = Some v /\ (k, v) ∈ m.
Proof.
  induction m as [|[k' v'] m IH]; simpl; [by intros H%elem_of_nil|].
  intros [Hk|Hk]%elem_of_cons.
  - subst k'. simpl. rewrite String.eqb_refl. exists (PStr s), v'. split; [done | by left].
  - destruct (key_eq k' (PStr s)).
    + exists k', v'. split; [done | by left].
    + destruct (IH Hk) as (k & v & Hv & Hin). exists k, v. split; [done | by right].
Qed.

(** X19.  For a CSV file the invoice menu cannot fail on the ids: the keys
    sort without [TypeError] into ascending code-point order, each id once;
    every id of the menu has line items to look up, at least one; and the
    file name can be made from it. *)
Theorem csv_invoice_menu repr sort_numbers data path invs :
  String.eqb (lower (Path.suffix path)) ".json" = false ->
  parse_invoices_from_data repr data path = Ok invs ->
  exists ids,
    sorted_keys sort_numbers (keys invs) = Ok (map PStr ids) /\
    StronglySorted str_le ids /\
    map PStr ids ≡ₚ keys invs /\
    forall s, s ∈ ids ->
      exists items,
        lookup (PStr s) invs = Some items /\ items <> [] /\
        safe_id (PStr s) = Ok (sanitize s).
Proof.
  intros Hext. unfold parse_invoices_from_data. rewrite Hext.
  intros H. apply bind_Ok in H as (rows & _ & H).
  assert (Hkeys : Forall good_csv_key (keys invs)).
  { revert H. apply (for_each_inv (fun m => Forall good_csv_key (keys m))); [|constructor].
    intros st x st' _. apply csv_step_keys. }
  assert (Hvals : values_nonempty invs).
  { revert H. apply (for_each_inv values_nonempty).
    - intros st x st' _. apply csv_step_nonempty.
    - intros k its Hk. by apply elem_of_nil in Hk. }
  destruct (csv_keys_as_str _ Hkeys) as (ids & Hids & HmapM).
  exists (merge_sort str_le ids). split_and!.
  - unfold sorted_keys. by rewrite HmapM.
  - apply StronglySorted_merge_sort; apply _.
  - rewrite Hids. apply fmap_Permutation, merge_sort_Permutation.
  - intros s Hs. rewrite merge_sort_Permutation in Hs.
    assert (Hin : PStr s ∈ keys invs).
    { rewrite Hids. apply list_elem_of_fmap. by exists s. }
    destruct (lookup_of_str_key s invs Hin) as (k & v & Hv & Hkv).
    exists v. split_and!; [done | by eapply Hvals | done].
Qed.

Lemma csv_invoice_menu_witness :
  exists ids,
    sorted_keys (fun ks => ks) [PStr "A1"] = Ok (map PStr ids) /\
    StronglySorted str_le ids /\
    map PStr ids ≡ₚ [PStr "A1"] /\
    forall s, s ∈ ids ->
      exists items,
        lookup (PStr s)
          [(PStr "A1",
            [LineItem (PStr "Widget") (PStr "9.99") (PInt 2);
             LineItem (PStr "Bolt") (PStr "0.5") (PInt 10)])]
        = Some items /\ items <> [] /\
        safe_id (PStr s) = Ok (sanitize s).
Proof.
  exact (csv_invoice_menu repr_stub (fun ks => ks) (PList (map PDict csv_rows)) "a.csv"
           _ eq_refl eq_refl).
Defined.

Lemma index_elem {A} (l : list A) i x : index l i = Ok x -> x ∈ l.
Proof.
  unfold index.
  destruct (if 0 <=? i then _ else _) as [y|] eqn:Hy; [|discriminate].
  destruct (- Z.of_nat (length l) <=? i); [|discriminate]. intros [= <-].
  destruct (0 <=? i); by eapply list_elem_of_lookup_2.
Qed.

Section Select.

Variable repr_ext : pyval -> string.
Variable load_csv : string -> pyval + string.
Variable load_json : string -> pyval + string.


End Select.


Lemma sanitize_only_safe_chars_witness :
  safe "_" = true /\ "_"%char <> "/"%char /\ "_"%char <> "\"%char /\ "_"%char <> "."%char.
Proof.
  exact (proj1 (sanitize_only_safe_chars "inv/2024:01") 3%nat "_"%char eq_refl).
Defined.

Lemma reports_follow_success_witness :
  let run :=
    emit_invoice repr_stub (fun ks => ks) stub_render stub_pdf stub_no_viewer
      (Dirent "invoice.html" true) [(PStr "A1", [])] (Console ["1"] []) in
  exists new,
    stdout (snd run) = (stdout (Console ["1"] []) ++ new)%list /\
    ((List.filter is_report new = [] /\ fst run <> Ok tt) \/
     exists path html,
       stub_pdf html path = inl tt /\
       ((List.filter is_report new = [Print (Saved path)] /\
         exists what, stub_no_viewer path = inr what /\ fst run = Raise (External what)) \/
        (List.filter is_report new = [Print (Saved path); Print Opened] /\
         stub_no_viewer path = inl tt /\ fst run = Ok tt))).
Proof.
  intros run.
  exact (reports_follow_success repr_stub (fun ks => ks) stub_render stub_pdf
           stub_no_viewer (Dirent "invoice.html" true)
           [(PStr "A1", [])] (Console ["1"] []) (fst run) (snd run) eq_refl).
Defined.

End ShellExtras.
